(** * NhoyHub Order API (src/main.py): a shallow embedding and its properties

    The order collection [orders_db] is a Python list of dicts; it is
    modelled as a [list order] threaded explicitly through the handlers.
    The outside world a handler consults (the clock, [uuid.uuid4], whether
    the image write succeeds) is an explicit argument.

    Strings.  A Python [str] is modelled as a Rocq [string] whose
    characters are the code points below 256.  On that range the regular
    expression class [\d] is exactly [0-9], and [str.lower] is the
    character-wise map given by [lower_char] below.  Strings of any code
    points, with [str.lower] as CPython computes it, are the lists of code
    points of [UStr]; [PyStr.lower] is its restriction to the code points
    below 256 ([lower_codes]), and the search of [list_orders] is stated
    over both kinds of string.

    Timestamps.  [created_at] is a float holding seconds since the epoch.
    The handlers only compare time stamps (the sort key); the seeding
    subtracts whole hours.  Time stamps are modelled as rationals [Q], which
    contain every finite float, with exact arithmetic. *)

From Stdlib Require Import ZArith QArith Lqa Ascii String DecimalString DecimalZ.
From stdpp Require Import base tactics option list strings sorting gmap.

(* stdpp blocks the unfolding of string append; the proofs below compute with it. *)
#[local] Arguments String.append : simpl nomatch.

#[local] Open Scope string_scope.
#[local] Open Scope list_scope.
#[local] Open Scope Z_scope.

(** ** Python strings *)

Module PyStr.

Definition code (c : ascii) : N := N_of_ascii c.

(** The class [\d] of [re] on code points below 256. *)
Definition is_digit (c : ascii) : bool :=
  ((48 <=? code c) && (code c <=? 57))%N.

(** [str.lower] on one code point below 256: [A-Z], and the upper-case
    letters of the Latin-1 block (U+00C0..U+00DE without U+00D7). *)
Definition lower_char (c : ascii) : ascii :=
  if (((65 <=? code c) && (code c <=? 90))
      || ((192 <=? code c) && (code c <=? 222) && negb (code c =? 215)))%N
  then ascii_of_N (code c + 32)
  else c.

Fixpoint lower (s : string) : string :=
  match s with
  | EmptyString => EmptyString
  | String c s' => String (lower_char c) (lower s')
  end.

(** [needle in hay] for two [str]: [needle] starts at some position. *)
Fixpoint contains (needle hay : string) : bool :=
  String.prefix needle hay
  || match hay with
     | EmptyString => false
     | String _ hay' => contains needle hay'
     end.

(** Truthiness of an [Optional[str]]: [None] and the empty string are
    false. *)
Definition truthy (o : option string) : bool :=
  match o with
  | Some (String _ _) => true
  | _ => false
  end.

(** [str(i)] for an [int], as f-strings format it. *)
Definition str_of_int (i : Z) : string :=
  NilZero.string_of_int (Z.to_int i).

Definition all_digits (s : string) : Prop :=
  Forall (fun c => is_digit c = true) (list_ascii_of_string s).

(** [s] does not go on with a digit. *)
Definition no_digit_ahead (s : string) : Prop :=
  match s with
  | String c _ => is_digit c = false
  | EmptyString => True
  end.

(** The spec's words for the comparisons that ignore case. *)
Definition equal_ignoring_case (a b : string) : Prop := lower a = lower b.

#[global] Instance equal_ignoring_case_dec (a b : string) :
  Decision (equal_ignoring_case a b) := String.eq_dec (lower a) (lower b).

(** Some stretch of [s] is [q] up to case. *)
Definition occurs_ignoring_case (q s : string) : Prop :=
  exists pre mid post, s = pre +:+ mid +:+ post /\ equal_ignoring_case mid q.

End PyStr.

(** ** The derivation helper *)

Module Price.
Import PyStr.

(** The longest prefix of digits: what the greedy [\d+] consumes. *)
Fixpoint digit_run (s : string) : string :=
  match s with
  | String c s' => if is_digit c then String c (digit_run s') else EmptyString
  | EmptyString => EmptyString
  end.

(** The pattern [\$(\d+)] tried at the start of [s]: group 1 on a match. *)
Definition match_here (s : string) : option string :=
  match s with
  | String c s' =>
      if Ascii.eqb c "$"
      then match digit_run s' with
           | EmptyString => None
           | ds => Some ds
           end
      else None
  | EmptyString => None
  end.

(** [re.search]: the match at the leftmost position that has one. *)
Fixpoint re_search (s : string) : option string :=
  match match_here s with
  | Some g => Some g
  | None =>
      match s with
      | String _ s' => re_search s'
      | EmptyString => None
      end
  end.

Definition extract_price_from_name (name : string) : string :=
  match re_search name with
  | Some g => g
  | None => "N/A"
  end.

(** The spec's words: position [i] of [s] holds a ['$'] that a digit
    follows. *)
Definition dollar_digit_at (s : string) (i : nat) : Prop :=
  exists pre c post,
    s = pre +:+ String "$" (String c post)
    /\ String.length pre = i /\ is_digit c = true.

End Price.

(** ** The auth gate *)

Inductive http_error : Type :=
| Unauthorized   (* 401 *)
| NotFound       (* 404 *)
| StorageError.  (* 500, "Could not save uploaded file" *)

Definition status_code (e : http_error) : Z :=
  match e with
  | Unauthorized => 401
  | NotFound => 404
  | StorageError => 500
  end.

(** A handler either returns its value or raises an [HTTPException]. *)
Inductive result (A : Type) : Type :=
| Ok (a : A)
| Err (e : http_error).
Arguments Ok {A} a.
Arguments Err {A} e.

Module Auth.

Definition ADMIN_USERNAME : string := "admin".
Definition ADMIN_PASSWORD : string := "password123".
Definition ADMIN_TOKEN : string := "fake-jwt-token-for-admin".

Record Token : Type := mkToken {
  access_token : string;
  token_type : string
}.

Definition get_current_user (token : string) : result string :=
  if negb (String.eqb token ADMIN_TOKEN)
  then Err Unauthorized
  else Ok ADMIN_USERNAME.

Definition login_for_access_token (username password : string) : result Token :=
  if negb (String.eqb username ADMIN_USERNAME)
     || negb (String.eqb password ADMIN_PASSWORD)
  then Err Unauthorized
  else Ok {| access_token := ADMIN_TOKEN; token_type := "bearer" |}.

End Auth.

(** ** Python lists: slices and [sorted] *)

Module PyList.

(** How a slice bound is read against a list of length [n]: a negative
    bound counts from the end, and every bound is clamped to [0..n]. *)
Definition slice_bound (n i : Z) : Z :=
  if i <? 0 then Z.max 0 (i + n) else Z.min i n.

(** [l[start:stop]] *)
Definition slice {A : Type} (l : list A) (start stop : Z) : list A :=
  let n := Z.of_nat (length l) in
  let a := slice_bound n start in
  let b := slice_bound n stop in
  take (Z.to_nat (b - a)) (drop (Z.to_nat a) l).

Definition Qltb (a b : Q) : bool := negb (Qle_bool b a).

Section Sorted.
Context {A : Type} (key : A -> Q).

(** [x] comes from the left of everything in [l]: it passes the
    elements whose key is strictly greater and stops at the first one
    that is not, so that equal keys keep their order. *)
Fixpoint insert_desc (x : A) (l : list A) : list A :=
  match l with
  | [] => [x]
  | y :: l' =>
      if Qltb (key x) (key y) then y :: insert_desc x l' else x :: l
  end.

(** [sorted(l, key=key, reverse=True)].  Python's sort is stable, also
    when reversed; a stable sort by descending key has one possible
    result (see [sorted_reverse_unique]), which this one computes. *)
Fixpoint sorted_reverse (l : list A) : list A :=
  match l with
  | [] => []
  | x :: l' => insert_desc x (sorted_reverse l')
  end.

(** The keys do not grow along [l]. *)
Definition descending (l : list A) : Prop :=
  StronglySorted (fun a b => (key b <= key a)%Q) l.

(** The elements of [l] whose key is [k], in the order they have in [l]. *)
Definition with_key (k : Q) (l : list A) : list A :=
  List.filter (fun a => Qeq_bool (key a) k) l.

End Sorted.

End PyList.

(** ** The order store *)

Module Store.
Import PyStr Price PyList.

(** A dict of [orders_db].  The key ["price"] is absent from the seeded
    dicts and present in those [create_order] and [update_order] wrote:
    [price] is [None] when the key is absent. *)
Record order : Type := mkOrder {
  id : Z;
  name : string;
  udid : string;
  image_url : string;
  status : string;
  download_link : option string;
  created_at : Q;
  price : option string
}.

(** [{**o, "price": p}] *)
Definition set_price (p : string) (o : order) : order :=
  {| id := id o; name := name o; udid := udid o; image_url := image_url o;
     status := status o; download_link := download_link o;
     created_at := created_at o; price := Some p |}.

Definition with_price (o : order) : order :=
  set_price (extract_price_from_name (name o)) o.

Record OrderListResponse : Type := mkList {
  items : list order;
  total : Z;
  page : Z;
  page_size : Z
}.

(** An [UploadFile]: only its file name reaches the record. *)
Record UploadFile : Type := mkUpload {
  filename : option string
}.

(** What one request reads from outside the process. *)
Record world : Type := mkWorld {
  uuid_hex : string;     (* uuid.uuid4().hex *)
  write_ok : bool;       (* the copy to disk does not raise *)
  now : Q                (* time.time() *)
}.

Definition UPLOAD_DIR : string := "images".

(** f-string formatting of an [Optional[str]]. *)
Definition fmt_opt (o : option string) : string :=
  match o with
  | Some s => s
  | None => "None"
  end.

Definition save_upload_file (w : world) (upload_file : UploadFile) (order_id : Z)
  : result string :=
  let filename :=
    "order_" +:+ str_of_int order_id +:+ "_" +:+ String.substring 0 8 (uuid_hex w)
    +:+ "_" +:+ fmt_opt (filename upload_file) in
  if write_ok w
  then Ok ("/" +:+ UPLOAD_DIR +:+ "/" +:+ filename)
  else Err StorageError.

(** *** Startup *)

Definition seed_order (clock : Z -> Q) (uuid : Z -> string) (i : Z) : order :=
  {| id := i;
     name := "Dummy Item " +:+ str_of_int i +:+ " $" +:+ str_of_int (100 + i);
     udid := "dummy-" +:+ str_of_int i +:+ "-" +:+ String.substring 0 12 (uuid i);
     image_url := "/images/default.jpg";
     status := if i mod 3 =? 0 then "approved"
               else if i mod 5 =? 0 then "rejected" else "pending";
     download_link := if i mod 3 =? 0
                      then Some ("http://example.com/download/" +:+ str_of_int i)
                      else None;
     created_at := (clock i - inject_Z (i * 3600))%Q;
     price := None |}.

(** [clock i] and [uuid i] are what [time.time()] and [uuid.uuid4().hex]
    return in the iteration for [i]. *)
Definition startup_event (clock : Z -> Q) (uuid : Z -> string)
    (orders_db : list order) : list order :=
  orders_db ++ (seed_order clock uuid <$> seqZ 1 25).

(** The loop spends at most an hour between the clock readings of two
    iterations that follow each other, from [m] on for [n] iterations. *)
Definition steady_clock (clock : Z -> Q) (m : Z) (n : nat) : Prop :=
  forall i, m <= i < m + Z.of_nat n - 1 -> (clock (i + 1)%Z - clock i <= 3600)%Q.

(** *** Handlers.  A mutating handler returns its outcome and the new
    [orders_db]. *)

Definition create_order (w : world) (name udid : string) (image : UploadFile)
    (orders_db : list order) : result order * list order :=
  let new_id := Z.of_nat (length orders_db) + 1 in
  match save_upload_file w image new_id with
  | Err e => (Err e, orders_db)
  | Ok image_url =>
      let new_order :=
        {| id := new_id; name := name; udid := udid; image_url := image_url;
           status := "pending"; download_link := None; created_at := now w;
           price := Some (extract_price_from_name name) |} in
      (Ok new_order, orders_db ++ [new_order])
  end.

Definition known_statuses : list string := ["pending"; "approved"; "rejected"].

Definition status_applies (status : option string) : bool :=
  match status with
  | Some s => truthy status && bool_decide (lower s ∈ known_statuses)
  | None => false
  end.

Definition by_status (status : option string) (orders : list order) : list order :=
  match status with
  | Some s =>
      if status_applies status
      then filter (fun o => lower (Store.status o) = lower s) orders
      else orders
  | None => orders
  end.

Definition q_matches (q_lower : string) (o : order) : bool :=
  contains q_lower (lower (name o)) || contains q_lower (lower (udid o)).

Definition by_search (q : option string) (orders : list order) : list order :=
  match q with
  | Some s =>
      if truthy q
      then let q_lower := lower s in
           filter (fun o => q_matches q_lower o = true) orders
      else orders
  | None => orders
  end.

(** [filtered_orders] when the sort is reached. *)
Definition filtered_orders (status q : option string) (orders_db : list order)
  : list order :=
  by_search q (by_status status orders_db).

Definition sorted_orders (status q : option string) (orders_db : list order)
  : list order :=
  sorted_reverse created_at (filtered_orders status q orders_db).

Definition list_orders (page page_size : Z) (status q : option string)
    (orders_db : list order) : OrderListResponse :=
  let filtered := filtered_orders status q orders_db in
  let sorted := sorted_reverse created_at filtered in
  let start := (page - 1) * page_size in
  let stop := start + page_size in
  {| items := with_price <$> slice sorted start stop;
     total := Z.of_nat (length filtered);
     page := page;
     page_size := page_size |}.

Definition get_order (order_id : Z) (admin : string) (orders_db : list order)
  : result order :=
  match list_find (fun o => id o = order_id) orders_db with
  | None => Err NotFound
  | Some (_, o) => Ok (with_price o)
  end.

(** The dict at [order_index] is changed in place; no other list or
    variable holds it, so the change is a replacement at that index. *)
Definition update_order (w : world) (order_id : Z) (name udid status : string)
    (download_link : option string) (image : option UploadFile) (admin : string)
    (orders_db : list order) : result order * list order :=
  match list_find (fun o => id o = order_id) orders_db with
  | None => (Err NotFound, orders_db)
  | Some (order_index, order) =>
      let saved :=
        match image with
        | Some f =>
            if truthy (filename f)
            then save_upload_file w f order_id
            else Ok (image_url order)
        | None => Ok (image_url order)
        end in
      match saved with
      | Err e => (Err e, orders_db)
      | Ok url =>
          let order' :=
            {| id := id order; name := name; udid := udid; image_url := url;
               status := status;
               download_link := if truthy download_link then download_link else None;
               created_at := created_at order;
               price := Some (extract_price_from_name name) |} in
          (Ok order', <[order_index := order']> orders_db)
      end
  end.

(** [orders_db] is rebound before the lengths are compared, so the new
    list is the state also when the handler raises. *)
Definition delete_order (order_id : Z) (admin : string) (orders_db : list order)
  : result unit * list order :=
  let initial_length := length orders_db in
  let orders_db' := filter (fun o => id o <> order_id) orders_db in
  if Nat.eqb (length orders_db') initial_length
  then (Err NotFound, orders_db')
  else (Ok tt, orders_db').

(** A stored price, where there is one, is the price of the current name. *)
Definition price_follows_name (o : order) : Prop :=
  price o = None \/ price o = Some (extract_price_from_name (name o)).

(** *** Requests: [Depends(get_current_user)] runs before the handler. *)

Inductive request : Type :=
| CreateOrder (w : world) (name udid : string) (image : UploadFile)
| UpdateOrder (token : string) (w : world) (order_id : Z) (name udid status : string)
    (download_link : option string) (image : option UploadFile)
| DeleteOrder (token : string) (order_id : Z).

Definition handle (orders_db : list order) (r : request) : list order :=
  match r with
  | CreateOrder w name udid image =>
      (create_order w name udid image orders_db).2
  | UpdateOrder token w order_id name udid status download_link image =>
      match Auth.get_current_user token with
      | Ok admin =>
          (update_order w order_id name udid status download_link image admin
             orders_db).2
      | Err _ => orders_db
      end
  | DeleteOrder token order_id =>
      match Auth.get_current_user token with
      | Ok admin => (delete_order order_id admin orders_db).2
      | Err _ => orders_db
      end
  end.

(** The state after a sequence of requests, served one after the other. *)
Definition serve (orders_db : list order) (rs : list request) : list order :=
  foldl handle orders_db rs.

End Store.

(** ** Concrete inputs used by the examples below *)

Module Fixtures.
Import Store.

Definition clock0 : Z -> Q := fun _ => 1700000000%Q.
Definition uuid0 : Z -> string := fun _ => "0123456789abcdef0123456789abcdef".

(** The collection right after startup. *)
Definition seeded : list order := startup_event clock0 uuid0 [].

Definition world0 : world :=
  {| uuid_hex := "deadbeefcafe4f00a1b2c3d4e5f60718"; write_ok := true;
     now := 1700000100%Q |}.

Definition upload0 : UploadFile := {| filename := Some "case.png" |}.

(** Three orders, the last two created at the same instant. *)
Definition trio : list order :=
  [ {| id := 1; name := "Old $5"; udid := "u-a"; image_url := "/images/a";
       status := "pending"; download_link := None; created_at := 10%Q;
       price := None |};
    {| id := 2; name := "New"; udid := "u-b"; image_url := "/images/b";
       status := "Approved"; download_link := None; created_at := 20%Q;
       price := None |};
    {| id := 3; name := "Twin $7"; udid := "u-c"; image_url := "/images/c";
       status := "pending"; download_link := None; created_at := 20%Q;
       price := None |} ].

(** The third seeded order after an update that keeps its name. *)
Definition updated3 : order :=
  {| id := 3; name := "Dummy Item 3 $103"; udid := "u3";
     image_url := "/images/default.jpg"; status := "approved";
     download_link := None;
     created_at := created_at (seed_order clock0 uuid0 3);
     price := Some "103" |}.

End Fixtures.

(** ** Python strings in full

    A [str] of any code points, as a list of them, with [str.lower] as
    CPython computes it: every code point is replaced by its full lower-case
    mapping (one code point, or two for U+0130), except the capital sigma
    U+03A3, which becomes the final sigma U+03C2 when a cased letter stands
    before it and none after it (case-ignorable code points are skipped on
    both sides), and the small sigma U+03C3 otherwise.  The three tables are
    those of the Unicode character database (version 14.0, the one of
    CPython 3.11). *)

Module UStr.

Definition in_ranges (rs : list (N * N)) (c : N) : bool :=
  existsb (fun r => (r.1 <=? c)%N && (c <=? r.2)%N) rs.

(** The code points with the property Case_Ignorable. *)
Definition case_ignorable_ranges : list (N * N) :=
  [
    (39, 39); (46, 46); (58, 58); (94, 94); (96, 96); (168, 168);
    (173, 173); (175, 175); (180, 180); (183, 184); (688, 879); (884, 885);
    (890, 890); (900, 901); (903, 903); (1155, 1161); (1369, 1369); (1375, 1375);
    (1425, 1469); (1471, 1471); (1473, 1474); (1476, 1477); (1479, 1479); (1524, 1524);
    (1536, 1541); (1552, 1562); (1564, 1564); (1600, 1600); (1611, 1631); (1648, 1648);
    (1750, 1757); (1759, 1768); (1770, 1773); (1807, 1807); (1809, 1809); (1840, 1866);
    (1958, 1968); (2027, 2037); (2042, 2042); (2045, 2045); (2070, 2093); (2137, 2139);
    (2184, 2184); (2192, 2193); (2200, 2207); (2249, 2306); (2362, 2362); (2364, 2364);
    (2369, 2376); (2381, 2381); (2385, 2391); (2402, 2403); (2417, 2417); (2433, 2433);
    (2492, 2492); (2497, 2500); (2509, 2509); (2530, 2531); (2558, 2558); (2561, 2562);
    (2620, 2620); (2625, 2626); (2631, 2632); (2635, 2637); (2641, 2641); (2672, 2673);
    (2677, 2677); (2689, 2690); (2748, 2748); (2753, 2757); (2759, 2760); (2765, 2765);
    (2786, 2787); (2810, 2815); (2817, 2817); (2876, 2876); (2879, 2879); (2881, 2884);
    (2893, 2893); (2901, 2902); (2914, 2915); (2946, 2946); (3008, 3008); (3021, 3021);
    (3072, 3072); (3076, 3076); (3132, 3132); (3134, 3136); (3142, 3144); (3146, 3149);
    (3157, 3158); (3170, 3171); (3201, 3201); (3260, 3260); (3263, 3263); (3270, 3270);
    (3276, 3277); (3298, 3299); (3328, 3329); (3387, 3388); (3393, 3396); (3405, 3405);
    (3426, 3427); (3457, 3457); (3530, 3530); (3538, 3540); (3542, 3542); (3633, 3633);
    (3636, 3642); (3654, 3662); (3761, 3761); (3764, 3772); (3782, 3782); (3784, 3789);
    (3864, 3865); (3893, 3893); (3895, 3895); (3897, 3897); (3953, 3966); (3968, 3972);
    (3974, 3975); (3981, 3991); (3993, 4028); (4038, 4038); (4141, 4144); (4146, 4151);
    (4153, 4154); (4157, 4158); (4184, 4185); (4190, 4192); (4209, 4212); (4226, 4226);
    (4229, 4230); (4237, 4237); (4253, 4253); (4348, 4348); (4957, 4959); (5906, 5908);
    (5938, 5939); (5970, 5971); (6002, 6003); (6068, 6069); (6071, 6077); (6086, 6086);
    (6089, 6099); (6103, 6103); (6109, 6109); (6155, 6159); (6211, 6211); (6277, 6278);
    (6313, 6313); (6432, 6434); (6439, 6440); (6450, 6450); (6457, 6459); (6679, 6680);
    (6683, 6683); (6742, 6742); (6744, 6750); (6752, 6752); (6754, 6754); (6757, 6764);
    (6771, 6780); (6783, 6783); (6823, 6823); (6832, 6862); (6912, 6915); (6964, 6964);
    (6966, 6970); (6972, 6972); (6978, 6978); (7019, 7027); (7040, 7041); (7074, 7077);
    (7080, 7081); (7083, 7085); (7142, 7142); (7144, 7145); (7149, 7149); (7151, 7153);
    (7212, 7219); (7222, 7223); (7288, 7293); (7376, 7378); (7380, 7392); (7394, 7400);
    (7405, 7405); (7412, 7412); (7416, 7417); (7468, 7530); (7544, 7544); (7579, 7679);
    (8125, 8125); (8127, 8129); (8141, 8143); (8157, 8159); (8173, 8175); (8189, 8190);
    (8203, 8207); (8216, 8217); (8228, 8228); (8231, 8231); (8234, 8238); (8288, 8292);
    (8294, 8303); (8305, 8305); (8319, 8319); (8336, 8348); (8400, 8432); (11388, 11389);
    (11503, 11505); (11631, 11631); (11647, 11647); (11744, 11775); (11823, 11823); (12293, 12293);
    (12330, 12333); (12337, 12341); (12347, 12347); (12441, 12446); (12540, 12542); (40981, 40981);
    (42232, 42237); (42508, 42508); (42607, 42610); (42612, 42621); (42623, 42623); (42652, 42655);
    (42736, 42737); (42752, 42785); (42864, 42864); (42888, 42890); (42994, 42996); (43000, 43001);
    (43010, 43010); (43014, 43014); (43019, 43019); (43045, 43046); (43052, 43052); (43204, 43205);
    (43232, 43249); (43263, 43263); (43302, 43309); (43335, 43345); (43392, 43394); (43443, 43443);
    (43446, 43449); (43452, 43453); (43471, 43471); (43493, 43494); (43561, 43566); (43569, 43570);
    (43573, 43574); (43587, 43587); (43596, 43596); (43632, 43632); (43644, 43644); (43696, 43696);
    (43698, 43700); (43703, 43704); (43710, 43711); (43713, 43713); (43741, 43741); (43756, 43757);
    (43763, 43764); (43766, 43766); (43867, 43871); (43881, 43883); (44005, 44005); (44008, 44008);
    (44013, 44013); (64286, 64286); (64434, 64450); (65024, 65039); (65043, 65043); (65056, 65071);
    (65106, 65106); (65109, 65109); (65279, 65279); (65287, 65287); (65294, 65294); (65306, 65306);
    (65342, 65342); (65344, 65344); (65392, 65392); (65438, 65439); (65507, 65507); (65529, 65531);
    (66045, 66045); (66272, 66272); (66422, 66426); (67456, 67461); (67463, 67504); (67506, 67514);
    (68097, 68099); (68101, 68102); (68108, 68111); (68152, 68154); (68159, 68159); (68325, 68326);
    (68900, 68903); (69291, 69292); (69446, 69456); (69506, 69509); (69633, 69633); (69688, 69702);
    (69744, 69744); (69747, 69748); (69759, 69761); (69811, 69814); (69817, 69818); (69821, 69821);
    (69826, 69826); (69837, 69837); (69888, 69890); (69927, 69931); (69933, 69940); (70003, 70003);
    (70016, 70017); (70070, 70078); (70089, 70092); (70095, 70095); (70191, 70193); (70196, 70196);
    (70198, 70199); (70206, 70206); (70367, 70367); (70371, 70378); (70400, 70401); (70459, 70460);
    (70464, 70464); (70502, 70508); (70512, 70516); (70712, 70719); (70722, 70724); (70726, 70726);
    (70750, 70750); (70835, 70840); (70842, 70842); (70847, 70848); (70850, 70851); (71090, 71093);
    (71100, 71101); (71103, 71104); (71132, 71133); (71219, 71226); (71229, 71229); (71231, 71232);
    (71339, 71339); (71341, 71341); (71344, 71349); (71351, 71351); (71453, 71455); (71458, 71461);
    (71463, 71467); (71727, 71735); (71737, 71738); (71995, 71996); (71998, 71998); (72003, 72003);
    (72148, 72151); (72154, 72155); (72160, 72160); (72193, 72202); (72243, 72248); (72251, 72254);
    (72263, 72263); (72273, 72278); (72281, 72283); (72330, 72342); (72344, 72345); (72752, 72758);
    (72760, 72765); (72767, 72767); (72850, 72871); (72874, 72880); (72882, 72883); (72885, 72886);
    (73009, 73014); (73018, 73018); (73020, 73021); (73023, 73029); (73031, 73031); (73104, 73105);
    (73109, 73109); (73111, 73111); (73459, 73460); (78896, 78904); (92912, 92916); (92976, 92982);
    (92992, 92995); (94031, 94031); (94095, 94111); (94176, 94177); (94179, 94180); (110576, 110579);
    (110581, 110587); (110589, 110590); (113821, 113822); (113824, 113827); (118528, 118573); (118576, 118598);
    (119143, 119145); (119155, 119170); (119173, 119179); (119210, 119213); (119362, 119364); (121344, 121398);
    (121403, 121452); (121461, 121461); (121476, 121476); (121499, 121503); (121505, 121519); (122880, 122886);
    (122888, 122904); (122907, 122913); (122915, 122916); (122918, 122922); (123184, 123197); (123566, 123566);
    (123628, 123631); (125136, 125142); (125252, 125259); (127995, 127999); (917505, 917505); (917536, 917631);
    (917760, 917999) ]%N.

(** The code points with the property Cased that are not case-ignorable
    (whether a case-ignorable code point is cased is never asked). *)
Definition cased_ranges : list (N * N) :=
  [
    (65, 90); (97, 122); (170, 170); (181, 181); (186, 186); (192, 214);
    (216, 246); (248, 442); (444, 447); (452, 659); (661, 687); (880, 883);
    (886, 887); (891, 893); (895, 895); (902, 902); (904, 906); (908, 908);
    (910, 929); (931, 1013); (1015, 1153); (1162, 1327); (1329, 1366); (1376, 1416);
    (4256, 4293); (4295, 4295); (4301, 4301); (4304, 4346); (4349, 4351); (5024, 5109);
    (5112, 5117); (7296, 7304); (7312, 7354); (7357, 7359); (7424, 7467); (7531, 7543);
    (7545, 7578); (7680, 7957); (7960, 7965); (7968, 8005); (8008, 8013); (8016, 8023);
    (8025, 8025); (8027, 8027); (8029, 8029); (8031, 8061); (8064, 8116); (8118, 8124);
    (8126, 8126); (8130, 8132); (8134, 8140); (8144, 8147); (8150, 8155); (8160, 8172);
    (8178, 8180); (8182, 8188); (8450, 8450); (8455, 8455); (8458, 8467); (8469, 8469);
    (8473, 8477); (8484, 8484); (8486, 8486); (8488, 8488); (8490, 8493); (8495, 8500);
    (8505, 8505); (8508, 8511); (8517, 8521); (8526, 8526); (8544, 8575); (8579, 8580);
    (9398, 9449); (11264, 11387); (11390, 11492); (11499, 11502); (11506, 11507); (11520, 11557);
    (11559, 11559); (11565, 11565); (42560, 42605); (42624, 42651); (42786, 42863); (42865, 42887);
    (42891, 42894); (42896, 42954); (42960, 42961); (42963, 42963); (42965, 42969); (42997, 42998);
    (43002, 43002); (43824, 43866); (43872, 43880); (43888, 43967); (64256, 64262); (64275, 64279);
    (65313, 65338); (65345, 65370); (66560, 66639); (66736, 66771); (66776, 66811); (66928, 66938);
    (66940, 66954); (66956, 66962); (66964, 66965); (66967, 66977); (66979, 66993); (66995, 67001);
    (67003, 67004); (68736, 68786); (68800, 68850); (71840, 71903); (93760, 93823); (119808, 119892);
    (119894, 119964); (119966, 119967); (119970, 119970); (119973, 119974); (119977, 119980); (119982, 119993);
    (119995, 119995); (119997, 120003); (120005, 120069); (120071, 120074); (120077, 120084); (120086, 120092);
    (120094, 120121); (120123, 120126); (120128, 120132); (120134, 120134); (120138, 120144); (120146, 120485);
    (120488, 120512); (120514, 120538); (120540, 120570); (120572, 120596); (120598, 120628); (120630, 120654);
    (120656, 120686); (120688, 120712); (120714, 120744); (120746, 120770); (120772, 120779); (122624, 122633);
    (122635, 122654); (125184, 125251); (127280, 127305); (127312, 127337); (127344, 127369) ]%N.

(** The lower-case mappings to one other code point, as runs
    [(first, last, step, offset)]: every [step]-th code point from [first]
    to [last] is mapped to itself plus [offset]. *)
Definition lower_runs : list (N * N * N * Z) :=
  [
    (65, 90, 1, (32)%Z); (192, 214, 1, (32)%Z); (216, 222, 1, (32)%Z); (256, 302, 2, (1)%Z);
    (306, 310, 2, (1)%Z); (313, 327, 2, (1)%Z); (330, 374, 2, (1)%Z); (376, 376, 1, (-121)%Z);
    (377, 381, 2, (1)%Z); (385, 385, 1, (210)%Z); (386, 388, 2, (1)%Z); (390, 390, 1, (206)%Z);
    (391, 391, 1, (1)%Z); (393, 394, 1, (205)%Z); (395, 395, 1, (1)%Z); (398, 398, 1, (79)%Z);
    (399, 399, 1, (202)%Z); (400, 400, 1, (203)%Z); (401, 401, 1, (1)%Z); (403, 403, 1, (205)%Z);
    (404, 404, 1, (207)%Z); (406, 406, 1, (211)%Z); (407, 407, 1, (209)%Z); (408, 408, 1, (1)%Z);
    (412, 412, 1, (211)%Z); (413, 413, 1, (213)%Z); (415, 415, 1, (214)%Z); (416, 420, 2, (1)%Z);
    (422, 422, 1, (218)%Z); (423, 423, 1, (1)%Z); (425, 425, 1, (218)%Z); (428, 428, 1, (1)%Z);
    (430, 430, 1, (218)%Z); (431, 431, 1, (1)%Z); (433, 434, 1, (217)%Z); (435, 437, 2, (1)%Z);
    (439, 439, 1, (219)%Z); (440, 440, 1, (1)%Z); (444, 444, 1, (1)%Z); (452, 452, 1, (2)%Z);
    (453, 453, 1, (1)%Z); (455, 455, 1, (2)%Z); (456, 456, 1, (1)%Z); (458, 458, 1, (2)%Z);
    (459, 475, 2, (1)%Z); (478, 494, 2, (1)%Z); (497, 497, 1, (2)%Z); (498, 500, 2, (1)%Z);
    (502, 502, 1, (-97)%Z); (503, 503, 1, (-56)%Z); (504, 542, 2, (1)%Z); (544, 544, 1, (-130)%Z);
    (546, 562, 2, (1)%Z); (570, 570, 1, (10795)%Z); (571, 571, 1, (1)%Z); (573, 573, 1, (-163)%Z);
    (574, 574, 1, (10792)%Z); (577, 577, 1, (1)%Z); (579, 579, 1, (-195)%Z); (580, 580, 1, (69)%Z);
    (581, 581, 1, (71)%Z); (582, 590, 2, (1)%Z); (880, 882, 2, (1)%Z); (886, 886, 1, (1)%Z);
    (895, 895, 1, (116)%Z); (902, 902, 1, (38)%Z); (904, 906, 1, (37)%Z); (908, 908, 1, (64)%Z);
    (910, 911, 1, (63)%Z); (913, 929, 1, (32)%Z); (931, 939, 1, (32)%Z); (975, 975, 1, (8)%Z);
    (984, 1006, 2, (1)%Z); (1012, 1012, 1, (-60)%Z); (1015, 1015, 1, (1)%Z); (1017, 1017, 1, (-7)%Z);
    (1018, 1018, 1, (1)%Z); (1021, 1023, 1, (-130)%Z); (1024, 1039, 1, (80)%Z); (1040, 1071, 1, (32)%Z);
    (1120, 1152, 2, (1)%Z); (1162, 1214, 2, (1)%Z); (1216, 1216, 1, (15)%Z); (1217, 1229, 2, (1)%Z);
    (1232, 1326, 2, (1)%Z); (1329, 1366, 1, (48)%Z); (4256, 4293, 1, (7264)%Z); (4295, 4295, 1, (7264)%Z);
    (4301, 4301, 1, (7264)%Z); (5024, 5103, 1, (38864)%Z); (5104, 5109, 1, (8)%Z); (7312, 7354, 1, (-3008)%Z);
    (7357, 7359, 1, (-3008)%Z); (7680, 7828, 2, (1)%Z); (7838, 7838, 1, (-7615)%Z); (7840, 7934, 2, (1)%Z);
    (7944, 7951, 1, (-8)%Z); (7960, 7965, 1, (-8)%Z); (7976, 7983, 1, (-8)%Z); (7992, 7999, 1, (-8)%Z);
    (8008, 8013, 1, (-8)%Z); (8025, 8031, 2, (-8)%Z); (8040, 8047, 1, (-8)%Z); (8072, 8079, 1, (-8)%Z);
    (8088, 8095, 1, (-8)%Z); (8104, 8111, 1, (-8)%Z); (8120, 8121, 1, (-8)%Z); (8122, 8123, 1, (-74)%Z);
    (8124, 8124, 1, (-9)%Z); (8136, 8139, 1, (-86)%Z); (8140, 8140, 1, (-9)%Z); (8152, 8153, 1, (-8)%Z);
    (8154, 8155, 1, (-100)%Z); (8168, 8169, 1, (-8)%Z); (8170, 8171, 1, (-112)%Z); (8172, 8172, 1, (-7)%Z);
    (8184, 8185, 1, (-128)%Z); (8186, 8187, 1, (-126)%Z); (8188, 8188, 1, (-9)%Z); (8486, 8486, 1, (-7517)%Z);
    (8490, 8490, 1, (-8383)%Z); (8491, 8491, 1, (-8262)%Z); (8498, 8498, 1, (28)%Z); (8544, 8559, 1, (16)%Z);
    (8579, 8579, 1, (1)%Z); (9398, 9423, 1, (26)%Z); (11264, 11311, 1, (48)%Z); (11360, 11360, 1, (1)%Z);
    (11362, 11362, 1, (-10743)%Z); (11363, 11363, 1, (-3814)%Z); (11364, 11364, 1, (-10727)%Z); (11367, 11371, 2, (1)%Z);
    (11373, 11373, 1, (-10780)%Z); (11374, 11374, 1, (-10749)%Z); (11375, 11375, 1, (-10783)%Z); (11376, 11376, 1, (-10782)%Z);
    (11378, 11378, 1, (1)%Z); (11381, 11381, 1, (1)%Z); (11390, 11391, 1, (-10815)%Z); (11392, 11490, 2, (1)%Z);
    (11499, 11501, 2, (1)%Z); (11506, 11506, 1, (1)%Z); (42560, 42604, 2, (1)%Z); (42624, 42650, 2, (1)%Z);
    (42786, 42798, 2, (1)%Z); (42802, 42862, 2, (1)%Z); (42873, 42875, 2, (1)%Z); (42877, 42877, 1, (-35332)%Z);
    (42878, 42886, 2, (1)%Z); (42891, 42891, 1, (1)%Z); (42893, 42893, 1, (-42280)%Z); (42896, 42898, 2, (1)%Z);
    (42902, 42920, 2, (1)%Z); (42922, 42922, 1, (-42308)%Z); (42923, 42923, 1, (-42319)%Z); (42924, 42924, 1, (-42315)%Z);
    (42925, 42925, 1, (-42305)%Z); (42926, 42926, 1, (-42308)%Z); (42928, 42928, 1, (-42258)%Z); (42929, 42929, 1, (-42282)%Z);
    (42930, 42930, 1, (-42261)%Z); (42931, 42931, 1, (928)%Z); (42932, 42946, 2, (1)%Z); (42948, 42948, 1, (-48)%Z);
    (42949, 42949, 1, (-42307)%Z); (42950, 42950, 1, (-35384)%Z); (42951, 42953, 2, (1)%Z); (42960, 42960, 1, (1)%Z);
    (42966, 42968, 2, (1)%Z); (42997, 42997, 1, (1)%Z); (65313, 65338, 1, (32)%Z); (66560, 66599, 1, (40)%Z);
    (66736, 66771, 1, (40)%Z); (66928, 66938, 1, (39)%Z); (66940, 66954, 1, (39)%Z); (66956, 66962, 1, (39)%Z);
    (66964, 66965, 1, (39)%Z); (68736, 68786, 1, (64)%Z); (71840, 71871, 1, (32)%Z); (93760, 93791, 1, (32)%Z);
    (125184, 125217, 1, (34)%Z) ]%N.

Definition is_case_ignorable (c : N) : bool := in_ranges case_ignorable_ranges c.

Definition is_cased (c : N) : bool := in_ranges cased_ranges c.

Definition in_run (c : N) (r : N * N * N * Z) : bool :=
  let '(first, last, step, _) := r in
  ((first <=? c) && (c <=? last) && ((c - first) mod step =? 0))%N.

Definition to_lower_full (c : N) : list N :=
  if (c =? 304)%N then [105; 775]%N
  else
    match List.find (in_run c) lower_runs with
    | Some (_, _, _, offset) => [Z.to_N (Z.of_N c + offset)]
    | None => [c]
    end.

Fixpoint skip_ignorable (l : list N) : list N :=
  match l with
  | c :: l' => if is_case_ignorable c then skip_ignorable l' else l
  | [] => []
  end.

(** [before] is what stands before the sigma, nearest first; [after] is
    what follows it. *)
Definition final_sigma (before after : list N) : bool :=
  match skip_ignorable before with
  | c :: _ => is_cased c
  | [] => false
  end
  && match skip_ignorable after with
     | c :: _ => negb (is_cased c)
     | [] => true
     end.

Fixpoint lower_from (before s : list N) : list N :=
  match s with
  | [] => []
  | c :: rest =>
      (if (c =? 931)%N
       then [if final_sigma before rest then 962%N else 963%N]
       else to_lower_full c)
      ++ lower_from (c :: before) rest
  end.

(** [s.lower()] *)
Definition lower (s : list N) : list N := lower_from [] s.

Fixpoint starts_with (needle hay : list N) : bool :=
  match needle, hay with
  | [], _ => true
  | c :: needle', d :: hay' => (c =? d)%N && starts_with needle' hay'
  | _ :: _, [] => false
  end.

(** [needle in hay] *)
Fixpoint contains (needle hay : list N) : bool :=
  starts_with needle hay
  || match hay with
     | [] => false
     | _ :: hay' => contains needle hay'
     end.

Definition truthy (s : list N) : bool :=
  match s with
  | [] => false
  | _ :: _ => true
  end.

(** The spec's words: some stretch of [s] is [q] up to case. *)
Definition occurs_ignoring_case (q s : list N) : Prop :=
  exists pre mid post, s = pre ++ mid ++ post /\ lower mid = lower q.

(** A string of code points below 256 (the strings of [PyStr]) as a string
    in full. *)
Definition codes (s : string) : list N := N_of_ascii <$> list_ascii_of_string s.

End UStr.

(** ** The search filter of [list_orders], over any kind of string

    Lines 199 to 204 of the source, with the string operations they use as
    arguments; [Store.by_search] is this filter on the strings of [PyStr]
    (see [by_search_instance]). *)

Module Search.

Section Filter.
Context {S A : Type}.
Context (lower : S -> S) (contains : S -> S -> bool) (truthy : S -> bool).
Context (name udid : A -> S).

Definition q_matches (q_lower : S) (o : A) : bool :=
  contains q_lower (lower (name o)) || contains q_lower (lower (udid o)).

Definition by_search (q : option S) (orders : list A) : list A :=
  match q with
  | Some s =>
      if truthy s
      then let q_lower := lower s in
           filter (fun o => q_matches q_lower o = true) orders
      else orders
  | None => orders
  end.

End Filter.



End Search.

(** ** The routes behind [Depends(get_current_user)] *)

Module Routes.
Import Store.

(** [GET /orders/{order_id}] *)
Definition GET_order (token : string) (order_id : Z) (orders_db : list order)
  : result order :=
  match Auth.get_current_user token with
  | Ok admin => get_order order_id admin orders_db
  | Err e => Err e
  end.

(** [PUT /orders/{order_id}] *)
Definition PUT_order (token : string) (w : world) (order_id : Z)
    (name udid status : string) (download_link : option string)
    (image : option UploadFile) (orders_db : list order)
  : result order * list order :=
  match Auth.get_current_user token with
  | Ok admin =>
      update_order w order_id name udid status download_link image admin orders_db
  | Err e => (Err e, orders_db)
  end.

(** [DELETE /orders/{order_id}] *)
Definition DELETE_order (token : string) (order_id : Z) (orders_db : list order)
  : result unit * list order :=
  match Auth.get_current_user token with
  | Ok admin => delete_order order_id admin orders_db
  | Err e => (Err e, orders_db)
  end.

(** The record without the key ["price"]. *)
Definition clear_price (o : order) : order :=
  {| id := id o; name := name o; udid := udid o; image_url := image_url o;
     status := status o; download_link := download_link o;
     created_at := created_at o; price := None |}.

(** A request that is not a deletion. *)
Definition keeps_records (r : request) : bool :=
  match r with
  | DeleteOrder _ _ => false
  | _ => true
  end.

End Routes.

(** ** The image store *)

Module Images.
Import Store.

Definition startswith_sep (s : string) : bool :=
  match s with
  | String c _ => Ascii.eqb c "/"
  | EmptyString => false
  end.

Fixpoint endswith_sep (s : string) : bool :=
  match s with
  | EmptyString => false
  | String c EmptyString => Ascii.eqb c "/"
  | String _ s' => endswith_sep s'
  end.

(** [os.path.join(a, b)] of [posixpath]. *)
Definition path_join (a b : string) : string :=
  if startswith_sep b then b
  else if String.eqb a "" || endswith_sep a then a +:+ b
  else a +:+ "/" +:+ b.

(** The name [save_upload_file] gives the file, and the path it writes. *)
Definition upload_name (w : world) (upload_file : UploadFile) (order_id : Z) : string :=
  "order_" +:+ PyStr.str_of_int order_id +:+ "_" +:+ String.substring 0 8 (uuid_hex w)
  +:+ "_" +:+ fmt_opt (filename upload_file).

Definition upload_path (w : world) (upload_file : UploadFile) (order_id : Z) : string :=
  path_join UPLOAD_DIR (upload_name w upload_file order_id).

(** [get_image]: [on_disk] is [os.path.exists]; the value is the path handed
    to [FileResponse]. *)
Definition get_image (on_disk : string -> bool) (filename : string) : result string :=
  let file_path := path_join UPLOAD_DIR filename in
  if negb (on_disk file_path)
  then
    let default_path := path_join UPLOAD_DIR "default.jpg" in
    if on_disk default_path then Ok default_path else Err NotFound
  else Ok file_path.

End Images.

(** ** The config store *)

Module Config.

(** What a config handler answers: its value, or an [HTTPException]. *)
Inductive reply (A : Type) : Type :=
| Return (a : A)
| Raise (status_code : Z) (detail : string).
Arguments Return {A} a.
Arguments Raise {A} status_code detail.

Definition config_db : gmap string string :=
  <["esign_image_5" := ""]>
  (<["esign_image_4" := ""]>
  (<["esign_image_3" := ""]>
  (<["esign_image_2" := ""]>
  (<["esign_image_1" := ""]>
  (<["public_image_url" :=
      "https://via.placeholder.com/600x400/9C27B0/ffffff?text=Public+Image"]> ∅))))).

Record ConfigUpdate : Type := mkConfigUpdate {
  public_image_url : option string;
  url : option string
}.

Definition get_config (admin : string) (cfg : gmap string string)
  : gmap string string := cfg.

Definition update_public_image_url (update : ConfigUpdate) (admin : string)
    (cfg : gmap string string)
  : reply (gmap string string) * gmap string string :=
  match public_image_url update with
  | None => (Raise 400 "Missing public_image_url field", cfg)
  | Some u =>
      (Return (<["public_image_url" := u]>
                 (<["message" := "Public image URL updated"]> ∅)),
       <["public_image_url" := u]> cfg)
  end.

Definition esign_key (index : Z) : string :=
  "esign_image_" +:+ PyStr.str_of_int index.

Definition update_esign_image_url (index : Z) (update : ConfigUpdate)
    (admin : string) (cfg : gmap string string)
  : reply (gmap string string) * gmap string string :=
  if negb ((1 <=? index) && (index <=? 5))
  then (Raise 400 "Esign index must be between 1 and 5", cfg)
  else
    match url update with
    | None => (Raise 400 "Missing url field", cfg)
    | Some u =>
        let key := esign_key index in
        (Return (<[key := u]>
                   (<["message" :=
                       "Esign image " +:+ PyStr.str_of_int index +:+ " updated"]> ∅)),
         <[key := u]> cfg)
    end.

(** [Depends(get_current_user)] in front of a config handler. *)
Definition as_admin {A : Type} (token : string) (cfg : gmap string string)
    (handler : string -> reply A * gmap string string)
  : reply A * gmap string string :=
  match Auth.get_current_user token with
  | Ok admin => handler admin
  | Err e => (Raise (status_code e) "Invalid authentication credentials", cfg)
  end.

Inductive request : Type :=
| GetConfig (token : string)
| PutPublic (token : string) (update : ConfigUpdate)
| PutEsign (token : string) (index : Z) (update : ConfigUpdate).

Definition handle (cfg : gmap string string) (r : request) : gmap string string :=
  match r with
  | GetConfig token =>
      (as_admin token cfg (fun admin => (Return (get_config admin cfg), cfg))).2
  | PutPublic token update =>
      (as_admin token cfg (fun admin => update_public_image_url update admin cfg)).2
  | PutEsign token index update =>
      (as_admin token cfg (fun admin => update_esign_image_url index update admin cfg)).2
  end.

Definition serve (cfg : gmap string string) (rs : list request) : gmap string string :=
  foldl handle cfg rs.

(** The six keys the process starts with. *)
Definition config_keys : gset string :=
  {[ "public_image_url"; "esign_image_1"; "esign_image_2"; "esign_image_3";
     "esign_image_4"; "esign_image_5" ]}.

End Config.

(** * Properties *)

(** ** The model at work *)

Example str_of_int_examples :
  PyStr.str_of_int 0 = "0" /\ PyStr.str_of_int 125 = "125"
  /\ PyStr.str_of_int (-7) = "-7".
Proof. repeat split. Qed.

Example lower_examples :
  PyStr.lower "ApProved $Z9" = "approved $z9"
  /\ PyStr.contains "item 2" "dummy item 21 $121" = true
  /\ PyStr.contains "" "abc" = true.
Proof. repeat split. Qed.

Example full_lower_examples :
  UStr.lower [931; 913; 931]%N = [963; 945; 962]%N
  /\ UStr.lower [913; 931; 39; 32]%N = [945; 962; 39; 32]%N
  /\ UStr.lower [304; 1041]%N = [105; 775; 1073]%N
  /\ UStr.lower (UStr.codes "ApProved $Z9") = UStr.codes "approved $z9"
  /\ UStr.contains [963]%N (UStr.lower [931; 913]%N) = true.
Proof. repeat split. Qed.

Example extract_price_examples :
  Price.extract_price_from_name "Case $999 and $5" = "999"
  /\ Price.extract_price_from_name "a$ $x $12b" = "12"
  /\ Price.extract_price_from_name "$" = "N/A".
Proof. repeat split. Qed.

Example slice_examples :
  PyList.slice [1; 2; 3; 4; 5] (-2) 10 = [4; 5]
  /\ PyList.slice [1; 2; 3; 4; 5] 1 (-1) = [2; 3; 4]
  /\ PyList.slice [1; 2; 3; 4; 5] 4 2 = []
  /\ PyList.slice [1; 2; 3; 4; 5] 7 9 = [].
Proof. repeat split. Qed.

Example seeded_examples :
  (fun o => (Store.id o, Store.name o, Store.status o, Store.download_link o))
    <$> take 3 Fixtures.seeded
  = [ (1, "Dummy Item 1 $101", "pending", None);
      (2, "Dummy Item 2 $102", "pending", None);
      (3, "Dummy Item 3 $103", "approved", Some "http://example.com/download/3") ]
  /\ Store.status <$> Fixtures.seeded !! 4%nat = Some "rejected"
  /\ Store.udid <$> Fixtures.seeded !! 9%nat = Some "dummy-10-0123456789ab".
Proof. repeat split. Qed.

Example create_order_example :
  (Store.create_order Fixtures.world0 "Case $999" "u1" Fixtures.upload0 []).1
  = Ok {| Store.id := 1; Store.name := "Case $999"; Store.udid := "u1";
          Store.image_url := "/images/order_1_deadbeef_case.png";
          Store.status := "pending"; Store.download_link := None;
          Store.created_at := 1700000100%Q; Store.price := Some "999" |}.
Proof. reflexivity. Qed.

(** ** Strings *)

Section StringFacts.
Import PyStr.

Lemma append_assoc (a b c : string) : (a +:+ b) +:+ c = a +:+ (b +:+ c).
Proof. induction a as [|x a IH]; simpl; [done | by rewrite IH]. Qed.

Lemma append_empty_r (a : string) : a +:+ "" = a.
Proof. induction a as [|x a IH]; simpl; [done | by rewrite IH]. Qed.

Lemma length_append (a b : string) :
  String.length (a +:+ b) = (String.length a + String.length b)%nat.
Proof. induction a as [|x a IH]; simpl; [done | by rewrite IH]. Qed.


Lemma length_lower (a : string) : String.length (lower a) = String.length a.
Proof. induction a as [|x a IH]; simpl; [done | by rewrite IH]. Qed.


Lemma prefix_spec (n h : string) :
  String.prefix n h = true <-> exists post, h = n +:+ post.
Proof.
  revert h. induction n as [|c n IH]; intros h; destruct h as [|d h]; simpl.
  - split; [by exists "" | done].
  - split; [by exists (String d h) | done].
  - split; [done | intros [post Hp]; simpl in Hp; done].
  - destruct (ascii_dec c d) as [->|Hne].
    + rewrite IH. split; intros [post Hp]; exists post; simpl in *; congruence.
    + split; [done | intros [post Hp]; simpl in Hp; congruence].
Qed.

(** [needle in hay] holds exactly when [hay] can be cut around a copy of
    [needle]. *)
Lemma contains_spec (n h : string) :
  contains n h = true <-> exists pre post, h = pre +:+ n +:+ post.
Proof.
  induction h as [|d h IH].
  - change (contains n "") with (String.prefix n "" || false).
    rewrite orb_false_r, prefix_spec. split.
    + intros [post Hp]. by exists "", post.
    + intros (pre & post & Hp). destruct pre; [by exists post | done].
  - change (contains n (String d h))
      with (String.prefix n (String d h) || contains n h).
    rewrite orb_true_iff, prefix_spec, IH. split.
    + intros [[post Hp] | (pre & post & Hp)].
      * by exists "", post.
      * exists (String d pre), post. simpl. by rewrite Hp.
    + intros (pre & post & Hp). destruct pre as [|e pre]; simpl in Hp.
      * left. by exists post.
      * right. exists pre, post. congruence.
Qed.

End StringFacts.

(** ** The derivation helper *)

Section PriceFacts.
Import PyStr Price.

Lemma digit_run_all_digits (s : string) : all_digits (digit_run s).
Proof.
  unfold all_digits. induction s as [|c s IH]; simpl; [constructor|].
  destruct (is_digit c) eqn:E; simpl; [by constructor | constructor].
Qed.

(** [digit_run] cuts [s] where the digits stop. *)
Lemma digit_run_split (s : string) :
  exists post, s = digit_run s +:+ post /\ no_digit_ahead post.
Proof.
  induction s as [|c s (post & IH & Hp)]; simpl.
  - by exists "".
  - destruct (is_digit c) eqn:E.
    + exists post. simpl. by rewrite <- IH.
    + by exists (String c s).
Qed.

Lemma digit_run_exact (ds post : string) :
  all_digits ds -> no_digit_ahead post -> digit_run (ds +:+ post) = ds.
Proof.
  unfold all_digits. induction ds as [|c ds IH]; simpl; intros Hd Hp.
  - destruct post as [|c post]; simpl in *; [done | by rewrite Hp].
  - inversion Hd as [|? ? Hc Hd']; subst. rewrite Hc. by rewrite IH.
Qed.

Lemma match_here_Some (s g : string) :
  match_here s = Some g ->
  exists s', s = String "$" s' /\ g = digit_run s' /\ g <> "".
Proof.
  destruct s as [|c s']; simpl; [done|].
  destruct (Ascii.eqb_spec c "$") as [->|]; [|done].
  destruct (digit_run s') eqn:E; [done|].
  intros [= <-]. by exists s'.
Qed.

Lemma match_here_dollar_digit (s g : string) :
  match_here s = Some g -> dollar_digit_at s 0.
Proof.
  intros (s' & -> & -> & Hne)%match_here_Some.
  destruct s' as [|c s']; simpl in Hne; [done|].
  destruct (is_digit c) eqn:E; [|done].
  by exists "", c, s'.
Qed.

Lemma dollar_digit_match_here (s : string) :
  dollar_digit_at s 0 -> exists g, match_here s = Some g.
Proof.
  intros (pre & c & post & -> & Hl & Hc).
  destruct pre; [|done]. simpl. rewrite Hc. eauto.
Qed.

Lemma dollar_digit_at_cons (c : ascii) (s : string) (j : nat) :
  dollar_digit_at (String c s) (S j) <-> dollar_digit_at s j.
Proof.
  split.
  - intros (pre & d & post & H & Hl & Hd).
    destruct pre as [|e pre]; simpl in *; [done|].
    exists pre, d, post. split; [congruence|]. split; [lia | done].
  - intros (pre & d & post & -> & Hl & Hd).
    exists (String c pre), d, post. simpl. split; [done|]. split; [lia | done].
Qed.

Lemma re_search_first (pre ds post : string) :
  ds <> "" -> all_digits ds -> no_digit_ahead post ->
  (forall j, (j < String.length pre)%nat ->
     ~ dollar_digit_at (pre +:+ String "$" (ds +:+ post)) j) ->
  re_search (pre +:+ String "$" (ds +:+ post)) = Some ds.
Proof.
  intros Hne Hd Hp. induction pre as [|c pre IH]; intros Hfirst.
  - simpl. rewrite (digit_run_exact _ _ Hd Hp). by destruct ds.
  - change (String c pre +:+ ?x) with (String c (pre +:+ x)) in *.
    cbn [re_search].
    destruct (match_here (String c _)) as [g|] eqn:E.
    + apply match_here_dollar_digit in E. exfalso.
      apply (Hfirst 0%nat); [simpl; lia | done].
    + apply IH. intros j Hj Hat. apply (Hfirst (S j)); [simpl; lia|].
      by apply dollar_digit_at_cons.
Qed.

Lemma re_search_none (s : string) :
  (forall j, ~ dollar_digit_at s j) -> re_search s = None.
Proof.
  induction s as [|c s IH]; intros Hno; [done|].
  cbn [re_search].
  destruct (match_here (String c s)) as [g|] eqn:E.
  - apply match_here_dollar_digit in E. by apply Hno in E.
  - apply IH. intros j Hat. apply (Hno (S j)). by apply dollar_digit_at_cons.
Qed.

(** Every name has a first ['$'] with digits behind it, or none at all. *)
Lemma first_occurrence_or_none (s : string) :
  (exists pre ds post,
      s = pre +:+ String "$" (ds +:+ post)
      /\ ds <> "" /\ all_digits ds /\ no_digit_ahead post
      /\ forall j, (j < String.length pre)%nat -> ~ dollar_digit_at s j)
  \/ (forall j, ~ dollar_digit_at s j).
Proof.
  induction s as [|c s IH].
  - right. intros j (pre & d & post & H & _). by destruct pre.
  - destruct (match_here (String c s)) as [g|] eqn:E.
    + left. destruct (match_here_Some _ _ E) as (s' & [= -> ->] & -> & Hne).
      destruct (digit_run_split s') as (post & Hs & Hp).
      exists "", (digit_run s'), post. simpl. rewrite <- Hs.
      repeat split; auto using digit_run_all_digits. intros j Hj. lia.
    + assert (H0 : ~ dollar_digit_at (String c s) 0).
      { intros [g Hg]%dollar_digit_match_here. congruence. }
      destruct IH as [(pre & ds & post & -> & Hne & Hd & Hp & Hfirst) | Hno].
      * left. exists (String c pre), ds, post. simpl.
        repeat split; auto. intros [|j] Hj; [done|].
        rewrite dollar_digit_at_cons. apply Hfirst. simpl in Hj. lia.
      * right. intros [|j]; [done|]. rewrite dollar_digit_at_cons. apply Hno.
Qed.

End PriceFacts.

(** C3. [extract_price_from_name] returns the digits behind the first ['$']
    that digits follow (all of them, up to the first character that is not
    a digit), and ["N/A"] when no ['$'] of the name is followed by a digit.
    One of the two cases applies to every name.  ["Widget $250"] gives
    ["250"] and ["Widget"] gives ["N/A"]. *)
Theorem extract_price_first_dollar_digits :
  (forall name pre ds post : string,
      name = pre +:+ String "$" (ds +:+ post) ->
      ds <> "" -> PyStr.all_digits ds -> PyStr.no_digit_ahead post ->
      (forall j, (j < String.length pre)%nat -> ~ Price.dollar_digit_at name j) ->
      Price.extract_price_from_name name = ds)
  /\ (forall name : string,
      (forall j, ~ Price.dollar_digit_at name j) ->
      Price.extract_price_from_name name = "N/A")
  /\ (forall name : string,
      (exists pre ds post,
          name = pre +:+ String "$" (ds +:+ post)
          /\ ds <> "" /\ PyStr.all_digits ds /\ PyStr.no_digit_ahead post
          /\ forall j, (j < String.length pre)%nat -> ~ Price.dollar_digit_at name j)
      \/ (forall j, ~ Price.dollar_digit_at name j))
  /\ Price.extract_price_from_name "Widget $250" = "250"
  /\ Price.extract_price_from_name "Widget" = "N/A".
Proof.
  split; [|split; [|split; [|split]]].
  - intros name pre ds post -> Hne Hd Hp Hfirst.
    unfold Price.extract_price_from_name.
    by rewrite re_search_first.
  - intros name Hno. unfold Price.extract_price_from_name.
    by rewrite re_search_none.
  - apply first_occurrence_or_none.
  - reflexivity.
  - reflexivity.
Qed.

Lemma extract_price_first_dollar_digits_witness :
  Price.extract_price_from_name "a$ $12c$7" = "12".
Proof.
  apply (proj1 extract_price_first_dollar_digits "a$ $12c$7" "a$ " "12" "c$7").
  - reflexivity.
  - discriminate.
  - repeat constructor.
  - reflexivity.
  - intros j Hj Hat.
    destruct j as [|[|[|j]]]; [| | |simpl in Hj; lia];
      repeat apply dollar_digit_at_cons in Hat;
      apply dollar_digit_match_here in Hat as [g Hg]; discriminate Hg.
Defined.

(** ** The auth gate *)

Section AuthFacts.
Import Auth.

Lemma login_ok_iff (u p : string) (tok : Token) :
  login_for_access_token u p = Ok tok <->
  u = ADMIN_USERNAME /\ p = ADMIN_PASSWORD
  /\ tok = {| access_token := ADMIN_TOKEN; token_type := "bearer" |}.
Proof.
  unfold login_for_access_token.
  destruct (String.eqb_spec u ADMIN_USERNAME) as [->|Hu];
    destruct (String.eqb_spec p ADMIN_PASSWORD) as [->|Hp]; simpl;
    split; try done; try (intros (? & ? & ?); done).
  - by intros [= <-].
  - by intros (_ & _ & ->).
Qed.

Lemma login_err (u p : string) :
  ~ (u = ADMIN_USERNAME /\ p = ADMIN_PASSWORD) ->
  login_for_access_token u p = Err Unauthorized.
Proof.
  unfold login_for_access_token.
  destruct (String.eqb_spec u ADMIN_USERNAME) as [->|Hu];
    destruct (String.eqb_spec p ADMIN_PASSWORD) as [->|Hp]; simpl;
    [intros []; done | done..].
Qed.

Lemma authorize_ok_iff (token admin : string) :
  get_current_user token = Ok admin <->
  token = ADMIN_TOKEN /\ admin = ADMIN_USERNAME.
Proof.
  unfold get_current_user.
  destruct (String.eqb_spec token ADMIN_TOKEN) as [->|Ht]; simpl; split.
  - by intros [= <-].
  - by intros [_ ->].
  - done.
  - by intros [? _].
Qed.

Lemma authorize_err (token : string) :
  token <> ADMIN_TOKEN -> get_current_user token = Err Unauthorized.
Proof.
  unfold get_current_user.
  by destruct (String.eqb_spec token ADMIN_TOKEN) as [->|Ht].
Qed.

End AuthFacts.

(** C9. [login] succeeds exactly on the configured admin pair and then
    returns the static token; every other pair is refused with
    Unauthorized.  [authorize] succeeds exactly on the static token; every
    other token string is refused with Unauthorized. *)
Theorem auth_gate_exact_match :
  (forall u p : string,
      (exists tok, Auth.login_for_access_token u p = Ok tok)
      <-> (u = Auth.ADMIN_USERNAME /\ p = Auth.ADMIN_PASSWORD))
  /\ (forall u p tok,
      Auth.login_for_access_token u p = Ok tok ->
      Auth.access_token tok = Auth.ADMIN_TOKEN)
  /\ (forall u p : string,
      ~ (u = Auth.ADMIN_USERNAME /\ p = Auth.ADMIN_PASSWORD) ->
      Auth.login_for_access_token u p = Err Unauthorized)
  /\ (forall token : string,
      (exists admin, Auth.get_current_user token = Ok admin)
      <-> token = Auth.ADMIN_TOKEN)
  /\ (forall token : string,
      token <> Auth.ADMIN_TOKEN ->
      Auth.get_current_user token = Err Unauthorized).
Proof.
  split; [|split; [|split; [|split]]].
  - intros u p. split.
    + intros [tok H]. apply login_ok_iff in H. tauto.
    + intros [-> ->]. eexists. reflexivity.
  - intros u p tok H. apply login_ok_iff in H as (_ & _ & ->). reflexivity.
  - apply login_err.
  - intros token. split.
    + intros [admin H]. apply authorize_ok_iff in H. tauto.
    + intros ->. eexists. reflexivity.
  - apply authorize_err.
Qed.

Lemma auth_gate_exact_match_witness :
  Auth.login_for_access_token "admin" "Password123" = Err Unauthorized
  /\ Auth.get_current_user "fake-jwt-token-for-admin " = Err Unauthorized.
Proof.
  split.
  - apply (proj1 (proj2 (proj2 auth_gate_exact_match)) "admin" "Password123").
    intros [_ H]. discriminate H.
  - apply (proj2 (proj2 (proj2 (proj2 auth_gate_exact_match)))).
    discriminate.
Defined.

(** ** Python lists *)

Section SliceFacts.
Import PyList.
Context {A : Type}.

(** For bounds that are not negative a slice is [drop] then [take]. *)
Lemma slice_take_drop (l : list A) (start size : Z) :
  0 <= start -> 0 <= size ->
  slice l start (start + size) = take (Z.to_nat size) (drop (Z.to_nat start) l).
Proof.
  intros Hs Hz. unfold slice, slice_bound.
  destruct (Z.ltb_spec start 0) as [|_]; [lia|].
  destruct (Z.ltb_spec (start + size) 0) as [|_]; [lia|].
  destruct (Z_le_gt_dec (Z.of_nat (length l)) start) as [Hge|Hlt].
  - rewrite !(drop_ge l) by lia. by rewrite !take_nil.
  - rewrite (Z.min_l start) by lia.
    destruct (Z_le_gt_dec (start + size) (Z.of_nat (length l))) as [Hin|Hout].
    + rewrite Z.min_l by lia. f_equal. lia.
    + rewrite Z.min_r by lia.
      rewrite !take_ge; [done | rewrite length_drop; lia..].
Qed.

Lemma slice_all (l : list A) (size : Z) :
  Z.of_nat (length l) <= size -> slice l 0 (0 + size) = l.
Proof.
  intros H. rewrite slice_take_drop by lia.
  change (Z.to_nat 0) with 0%nat. rewrite drop_0.
  rewrite take_ge; [done | lia].
Qed.

Lemma slice_beyond (l : list A) (start size : Z) :
  Z.of_nat (length l) <= start -> 0 <= size -> slice l start (start + size) = [].
Proof.
  intros H Hz. rewrite slice_take_drop by lia.
  rewrite drop_ge by lia. apply take_nil.
Qed.

End SliceFacts.

Section SortFacts.
Import PyList.
Context {A : Type} (key : A -> Q).

Lemma Qltb_true (a b : Q) : Qltb a b = true <-> (a < b)%Q.
Proof.
  unfold Qltb. rewrite negb_true_iff, <- not_true_iff_false, Qle_bool_iff.
  split; [apply Qnot_le_lt | apply Qlt_not_le].
Qed.

Lemma Qltb_false (a b : Q) : Qltb a b = false <-> (b <= a)%Q.
Proof. unfold Qltb. by rewrite negb_false_iff, Qle_bool_iff. Qed.

Lemma insert_desc_perm (x : A) (l : list A) : insert_desc key x l ≡ₚ x :: l.
Proof.
  induction l as [|y l IH]; simpl; [done|].
  destruct (Qltb (key x) (key y)); [|done].
  rewrite IH. apply Permutation_swap.
Qed.

Lemma sorted_reverse_perm (l : list A) : sorted_reverse key l ≡ₚ l.
Proof.
  induction l as [|x l IH]; simpl; [done|].
  by rewrite insert_desc_perm, IH.
Qed.

Lemma length_sorted_reverse (l : list A) :
  length (sorted_reverse key l) = length l.
Proof. by rewrite sorted_reverse_perm. Qed.

Lemma insert_desc_descending (x : A) (l : list A) :
  descending key l -> descending key (insert_desc key x l).
Proof.
  unfold descending. induction l as [|y l IH]; intros Hl; simpl.
  - repeat constructor.
  - inversion Hl as [|? ? Hl' Hy]; subst.
    destruct (Qltb (key x) (key y)) eqn:E.
    + apply Qltb_true in E. constructor; [by apply IH|].
      rewrite insert_desc_perm. constructor; [by apply Qlt_le_weak | done].
    + apply Qltb_false in E. constructor; [done|].
      constructor; [done|].
      eapply Forall_impl; [exact Hy|]. intros z Hz. simpl in Hz.
      by apply Qle_trans with (key y).
Qed.

Lemma sorted_reverse_descending (l : list A) : descending key (sorted_reverse key l).
Proof.
  induction l as [|x l IH]; simpl; [constructor|].
  by apply insert_desc_descending.
Qed.

Lemma with_key_cons (k : Q) (x : A) (l : list A) :
  with_key key k (x :: l)
  = if Qeq_bool (key x) k then x :: with_key key k l else with_key key k l.
Proof. reflexivity. Qed.

Lemma with_key_insert_desc (k : Q) (x : A) (l : list A) :
  with_key key k (insert_desc key x l) = with_key key k (x :: l).
Proof.
  induction l as [|y l IH]; [done|]. cbn [insert_desc].
  destruct (Qltb (key x) (key y)) eqn:E; [|done].
  apply Qltb_true in E. rewrite !with_key_cons, IH, with_key_cons.
  destruct (Qeq_bool (key x) k) eqn:Ex; [|done].
  destruct (Qeq_bool (key y) k) eqn:Ey; [|done].
  apply Qeq_bool_iff in Ex, Ey. rewrite Ex, Ey in E.
  by apply Qlt_irrefl in E.
Qed.

(** Stability: the elements of one key come out in the order they went
    in. *)
Lemma sorted_reverse_stable (k : Q) (l : list A) :
  with_key key k (sorted_reverse key l) = with_key key k l.
Proof.
  induction l as [|x l IH]; [done|]. cbn [sorted_reverse].
  by rewrite with_key_insert_desc, !with_key_cons, IH.
Qed.

Lemma with_key_elem (k : Q) (x : A) (l : list A) :
  x ∈ with_key key k l <-> x ∈ l /\ (key x == k)%Q.
Proof.
  unfold with_key. rewrite !list_elem_of_In, filter_In, Qeq_bool_iff. done.
Qed.

(** A list in descending order is fixed by its key classes: a stable
    descending sort has one possible result. *)
Lemma descending_with_key_unique (l1 l2 : list A) :
  descending key l1 -> descending key l2 ->
  (forall k, with_key key k l1 = with_key key k l2) ->
  l1 = l2.
Proof.
  unfold descending. revert l2.
  induction l1 as [|x l1 IH]; intros l2 H1 H2 Hk.
  - destruct l2 as [|y l2]; [done|].
    specialize (Hk (key y)). rewrite with_key_cons in Hk.
    by rewrite Qeq_bool_refl in Hk.
  - destruct l2 as [|y l2].
    { specialize (Hk (key x)). rewrite with_key_cons in Hk.
      by rewrite Qeq_bool_refl in Hk. }
    inversion H1 as [|? ? H1' Hx]; inversion H2 as [|? ? H2' Hy]; subst.
    assert (Hxy : (key x <= key y)%Q).
    { assert (Hin : x ∈ with_key key (key x) (y :: l2)).
      { rewrite <- Hk. apply with_key_elem. split; [left|reflexivity]. }
      apply with_key_elem in Hin as [Hin _].
      apply elem_of_cons in Hin as [->|Hin]; [apply Qle_refl|].
      by apply (proj1 (Forall_forall _ _) Hy). }
    assert (Hyx : (key y <= key x)%Q).
    { assert (Hin : y ∈ with_key key (key y) (x :: l1)).
      { rewrite Hk. apply with_key_elem. split; [left|reflexivity]. }
      apply with_key_elem in Hin as [Hin _].
      apply elem_of_cons in Hin as [->|Hin]; [apply Qle_refl|].
      by apply (proj1 (Forall_forall _ _) Hx). }
    assert (Heq : Qeq_bool (key y) (key x) = true).
    { apply Qeq_bool_iff. by apply Qle_antisym. }
    assert (x = y) as <-.
    { specialize (Hk (key x)). rewrite !with_key_cons in Hk.
      rewrite Qeq_bool_refl, Heq in Hk. congruence. }
    f_equal. apply IH; [done..|]. intros k.
    specialize (Hk k). rewrite !with_key_cons in Hk.
    destruct (Qeq_bool (key x) k); congruence.
Qed.

(** Any stable sort by descending key computes [sorted_reverse]. *)
Lemma sorted_reverse_unique (l l' : list A) :
  descending key l' ->
  (forall k, with_key key k l' = with_key key k l) ->
  l' = sorted_reverse key l.
Proof.
  intros Hd Hk. apply descending_with_key_unique; [done|..].
  - apply sorted_reverse_descending.
  - intros k. by rewrite sorted_reverse_stable.
Qed.

(** A list that is in descending order already is left as it is. *)
Lemma sorted_reverse_id (l : list A) :
  descending key l -> sorted_reverse key l = l.
Proof.
  intros Hd. symmetry. by apply sorted_reverse_unique.
Qed.

End SortFacts.

(** ** The order store *)

Section StoreFacts.
Import PyStr Price PyList Store.

Lemma lower_known_nonempty (s : string) :
  lower s ∈ known_statuses -> truthy (Some s) = true.
Proof.
  destruct s; [|done]. unfold known_statuses. simpl.
  rewrite !elem_of_cons, elem_of_nil. intros [H|[H|[H|[]]]]; discriminate H.
Qed.

Lemma by_status_known (s : string) (orders : list order) :
  lower s ∈ known_statuses ->
  by_status (Some s) orders
  = filter (fun o => equal_ignoring_case (status o) s) orders.
Proof.
  intros Hk. unfold by_status, status_applies.
  rewrite (lower_known_nonempty _ Hk), bool_decide_eq_true_2 by done. done.
Qed.

Lemma by_status_unknown (s : string) (orders : list order) :
  lower s ∉ known_statuses -> by_status (Some s) orders = orders.
Proof.
  intros Hk. unfold by_status, status_applies.
  rewrite bool_decide_eq_false_2 by done. by rewrite andb_false_r.
Qed.

Lemma by_search_nonempty (q : string) (orders : list order) :
  q <> "" ->
  by_search (Some q) orders
  = filter (fun o => q_matches (lower q) o = true) orders.
Proof. intros Hq. unfold by_search. by destruct q. Qed.

Lemma by_search_subset (q : option string) (orders : list order) (o : order) :
  o ∈ by_search q orders -> o ∈ orders.
Proof.
  unfold by_search. destruct q as [s|]; [|done].
  destruct (truthy (Some s)); [|done].
  rewrite list_elem_of_filter. tauto.
Qed.

Lemma by_status_subset (st : option string) (orders : list order) (o : order) :
  o ∈ by_status st orders -> o ∈ orders.
Proof.
  unfold by_status. destruct st as [s|]; [|done].
  destruct (status_applies (Some s)); [|done].
  rewrite list_elem_of_filter. tauto.
Qed.

Lemma elem_of_slice {A : Type} (l : list A) (a b : Z) (x : A) :
  x ∈ slice l a b -> x ∈ l.
Proof.
  unfold slice. intros Hx.
  eapply elem_of_sublist; [exact Hx|].
  etrans; [apply sublist_take | apply sublist_drop].
Qed.

(** Every item of a listing is a filtered order with its price put in. *)
Lemma elem_of_items (page page_size : Z) (st q : option string)
    (db : list order) (x : order) :
  x ∈ items (list_orders page page_size st q db) ->
  exists o, o ∈ filtered_orders st q db /\ x = with_price o.
Proof.
  unfold list_orders. simpl. intros (o & -> & Ho)%list_elem_of_fmap.
  exists o. split; [|done].
  apply elem_of_slice in Ho. by rewrite sorted_reverse_perm in Ho.
Qed.

Lemma total_filtered (page page_size : Z) (st q : option string) (db : list order) :
  total (list_orders page page_size st q db)
  = Z.of_nat (length (filtered_orders st q db)).
Proof. reflexivity. Qed.

Lemma filtered_orders_no_search (st : option string) (db : list order) :
  filtered_orders st None db = by_status st db.
Proof. reflexivity. Qed.


(** A page that holds the whole listing. *)
Lemma items_whole (page_size : Z) (st q : option string) (db : list order) :
  Z.of_nat (length (filtered_orders st q db)) <= page_size ->
  items (list_orders 1 page_size st q db)
  = with_price <$> sorted_orders st q db.
Proof.
  intros H. unfold list_orders, sorted_orders. simpl. f_equal.
  change ((1 - 1) * page_size) with 0.
  apply slice_all. by rewrite length_sorted_reverse.
Qed.

End StoreFacts.

(** C4. With a status argument that is one of the three known statuses
    up to case, a listing holds only orders whose status is the argument
    up to case, and the orders it draws from are exactly those of the
    collection with such a status; with any other argument that is not
    empty the listing is the one made without a status argument. *)
Theorem list_orders_status_filter :
  (forall (db : list Store.order) (page page_size : Z) (q : option string) (s : string),
      PyStr.lower s ∈ Store.known_statuses ->
      (forall o, o ∈ Store.items (Store.list_orders page page_size (Some s) q db) ->
                 PyStr.equal_ignoring_case (Store.status o) s)
      /\ Store.filtered_orders (Some s) None db
         = filter (fun o => PyStr.equal_ignoring_case (Store.status o) s) db
      /\ Store.total (Store.list_orders page page_size (Some s) None db)
         = Z.of_nat (length (filter
             (fun o => PyStr.equal_ignoring_case (Store.status o) s) db)))
  /\ (forall (db : list Store.order) (page page_size : Z) (q : option string) (s : string),
      s <> "" -> PyStr.lower s ∉ Store.known_statuses ->
      Store.filtered_orders (Some s) q db = Store.filtered_orders None q db
      /\ Store.list_orders page page_size (Some s) q db
         = Store.list_orders page page_size None q db).
Proof.
  split.
  - intros db page page_size q s Hk. split; [|split].
    + intros x (o & Ho & ->)%elem_of_items.
      unfold Store.filtered_orders in Ho. apply by_search_subset in Ho.
      rewrite by_status_known in Ho by done.
      apply list_elem_of_filter in Ho as [Ho _]. exact Ho.
    + rewrite filtered_orders_no_search. by apply by_status_known.
    + rewrite total_filtered, filtered_orders_no_search.
      by rewrite by_status_known.
  - intros db page page_size q s _ Hk.
    assert (H : Store.filtered_orders (Some s) q db = Store.filtered_orders None q db).
    { unfold Store.filtered_orders. by rewrite by_status_unknown. }
    split; [done|]. unfold Store.list_orders. by rewrite H.
Qed.

Lemma list_orders_status_filter_witness :
  Store.filtered_orders (Some "APPROVED") None Fixtures.trio
  = filter (fun o => PyStr.equal_ignoring_case (Store.status o) "APPROVED")
      Fixtures.trio.
Proof.
  apply (proj1 list_orders_status_filter Fixtures.trio 1 12 None "APPROVED").
  apply (bool_decide_unpack _). vm_compute. reflexivity.
Defined.

(** *** Strings in full, and the strings of code points below 256 in them *)

Section FullStrings.
Import PyStr.















End FullStrings.




Section ListingFacts.
Import PyList Store.

Lemma with_key_fmap_with_price (k : Q) (l : list order) :
  with_key created_at k (with_price <$> l)
  = with_price <$> with_key created_at k l.
Proof.
  induction l as [|o l IH]; [done|].
  rewrite fmap_cons, !with_key_cons, IH.
  change (created_at (with_price o)) with (created_at o).
  by destruct (Qeq_bool (created_at o) k).
Qed.

Lemma descending_fmap_with_price (l : list order) :
  descending created_at l -> descending created_at (with_price <$> l).
Proof. unfold descending. by apply StronglySorted_fmap. Qed.

End ListingFacts.

(** C6. Without a status argument and without a search text, page 1 with a
    page size that is at least the size of the collection holds every order
    once (with its price put in), newest first; orders created at the same
    instant keep the order they have in the collection. *)
Theorem list_orders_all_newest_first :
  forall (db : list Store.order) (page_size : Z),
    Z.of_nat (length db) <= page_size ->
    let r := Store.list_orders 1 page_size None None db in
    Store.items r ≡ₚ Store.with_price <$> db
    /\ PyList.descending Store.created_at (Store.items r)
    /\ (forall t, PyList.with_key Store.created_at t (Store.items r)
                  = Store.with_price <$> PyList.with_key Store.created_at t db)
    /\ Store.items r = Store.with_price <$> PyList.sorted_reverse Store.created_at db
    /\ Store.total r = Z.of_nat (length db).
Proof.
  intros db page_size Hsize r. subst r.
  rewrite items_whole by done.
  unfold Store.sorted_orders.
  change (Store.filtered_orders None None db) with db.
  split; [by rewrite sorted_reverse_perm|].
  split; [apply descending_fmap_with_price, sorted_reverse_descending|].
  split; [|done].
  intros t. by rewrite with_key_fmap_with_price, sorted_reverse_stable.
Qed.

Lemma list_orders_all_newest_first_witness :
  Store.id <$> Store.items (Store.list_orders 1 3 None None Fixtures.trio) = [2; 3; 1]
  /\ Store.items (Store.list_orders 1 3 None None Fixtures.trio)
     ≡ₚ Store.with_price <$> Fixtures.trio.
Proof.
  split; [reflexivity|].
  apply (list_orders_all_newest_first Fixtures.trio 3). simpl. lia.
Defined.

Section SeedFacts.
Import PyList Store.
Context (clock : Z -> Q) (uuid : Z -> string).

Lemma length_startup_event (db : list order) :
  length (startup_event clock uuid db) = (length db + 25)%nat.
Proof.
  unfold startup_event. by rewrite length_app, length_fmap, length_seqZ.
Qed.

Lemma seed_order_step (i : Z) :
  (clock (i + 1) - clock i <= 3600)%Q ->
  (created_at (seed_order clock uuid (i + 1))
   <= created_at (seed_order clock uuid i))%Q.
Proof.
  intros H. cbn [created_at seed_order].
  rewrite !inject_Z_mult, inject_Z_plus.
  change (inject_Z 3600) with 3600%Q. change (inject_Z 1) with 1%Q.
  revert H. generalize (inject_Z i), (clock (i + 1)), (clock i).
  intros x a b H. lra.
Qed.

Lemma seeds_sorted (n : nat) (m : Z) :
  steady_clock clock m n ->
  Sorted (fun a b => (created_at b <= created_at a)%Q)
    (seed_order clock uuid <$> seqZ m (Z.of_nat n)).
Proof.
  revert m. induction n as [|n IH]; intros m Hs; [constructor|].
  rewrite seqZ_cons by lia. rewrite fmap_cons.
  replace (Z.pred (Z.of_nat (S n))) with (Z.of_nat n) by lia.
  constructor.
  - apply IH. intros i Hi. apply Hs. lia.
  - destruct n as [|n]; [constructor|].
    rewrite seqZ_cons by lia. rewrite fmap_cons. constructor.
    change (Z.succ m) with (m + 1). apply seed_order_step, Hs. lia.
Qed.

Lemma seeds_descending :
  steady_clock clock 1 25 ->
  descending created_at (seed_order clock uuid <$> seqZ 1 25).
Proof.
  intros Hs. unfold descending. apply Sorted_StronglySorted.
  - intros a b c Hab Hbc. by apply Qle_trans with (created_at b).
  - by apply (seeds_sorted 25 1).
Qed.

End SeedFacts.

(** C7. For [page >= 1] and [page_size >= 1] the items are the stretch of
    the filtered and sorted orders that starts at [(page-1)*page_size] and
    is [page_size] long, and [total] is the number of filtered orders,
    whatever the page; a page that starts at or behind the end is empty.
    On the 25 seeded orders, page 3 of size 10 holds the five orders ranked
    21 to 25 and [total] is 25; these are the orders with the ids 21 to 25
    when the seeding loop did not take an hour between two iterations. *)
Theorem list_orders_page_slice :
  (forall (db : list Store.order) (page page_size : Z) (st q : option string),
      1 <= page -> 1 <= page_size ->
      let r := Store.list_orders page page_size st q db in
      Store.items r
      = Store.with_price
          <$> take (Z.to_nat page_size)
                (drop (Z.to_nat ((page - 1) * page_size))
                   (Store.sorted_orders st q db))
      /\ Store.total r = Z.of_nat (length (Store.filtered_orders st q db))
      /\ (Z.of_nat (length (Store.filtered_orders st q db)) <= (page - 1) * page_size ->
          Store.items r = []))
  /\ (forall (clock : Z -> Q) (uuid : Z -> string),
      let db := Store.startup_event clock uuid [] in
      let r := Store.list_orders 3 10 None None db in
      Store.total r = 25
      /\ length (Store.items r) = 5%nat
      /\ Store.items r
         = Store.with_price <$> drop 20 (Store.sorted_orders None None db)
      /\ ((forall i, 1 <= i < 25 -> (clock (i + 1)%Z - clock i <= 3600)%Q) ->
          Store.id <$> Store.items r = [21; 22; 23; 24; 25])).
Proof.
  assert (Hslice : forall (db : list Store.order) (page page_size : Z) st q,
    1 <= page -> 1 <= page_size ->
    Store.items (Store.list_orders page page_size st q db)
    = Store.with_price
        <$> take (Z.to_nat page_size)
              (drop (Z.to_nat ((page - 1) * page_size))
                 (Store.sorted_orders st q db))).
  { intros db page page_size st q Hp Hs. unfold Store.list_orders.
    cbn [Store.items]. f_equal. apply slice_take_drop; nia. }
  split.
  - intros db page page_size st q Hp Hs r. subst r.
    split; [by apply Hslice|]. split; [apply total_filtered|].
    intros Hend. rewrite Hslice by done.
    rewrite drop_ge; [by rewrite take_nil|].
    unfold Store.sorted_orders. rewrite length_sorted_reverse. nia.
  - intros clock uuid db r. subst r.
    assert (Hlen : length (Store.sorted_orders None None db) = 25%nat).
    { unfold Store.sorted_orders. rewrite length_sorted_reverse.
      change (Store.filtered_orders None None db) with db.
      subst db. by rewrite length_startup_event. }
    assert (Hitems : Store.items (Store.list_orders 3 10 None None db)
      = Store.with_price <$> drop 20 (Store.sorted_orders None None db)).
    { rewrite Hslice by lia. f_equal.
      change (Z.to_nat ((3 - 1) * 10)) with 20%nat.
      apply take_ge. rewrite length_drop, Hlen. simpl. lia. }
    split; [|split; [|split]].
    + rewrite total_filtered.
      change (Store.filtered_orders None None db) with db.
      subst db. by rewrite length_startup_event.
    + by rewrite Hitems, length_fmap, length_drop, Hlen.
    + exact Hitems.
    + intros Hclock. rewrite Hitems. unfold Store.sorted_orders.
      change (Store.filtered_orders None None db)
        with (Store.seed_order clock uuid <$> seqZ 1 25).
      rewrite sorted_reverse_id; [reflexivity|].
      apply seeds_descending. intros i Hi. apply Hclock. lia.
Qed.

Lemma list_orders_page_slice_witness :
  Store.id <$> Store.items (Store.list_orders 2 2 None None Fixtures.trio) = [1]
  /\ Store.items (Store.list_orders 2 2 None None Fixtures.trio)
     = Store.with_price
         <$> take 2 (drop 2 (Store.sorted_orders None None Fixtures.trio)).
Proof.
  split; [reflexivity|].
  apply (proj1 list_orders_page_slice Fixtures.trio 2 2 None None); lia.
Defined.

(** ** Deleting *)

Section DeleteFacts.
Import Store.

Lemma filter_other_ids_all (order_id : Z) (db : list order) :
  order_id ∉ id <$> db -> filter (fun o => id o <> order_id) db = db.
Proof.
  induction db as [|o db IH]; [done|].
  rewrite fmap_cons, not_elem_of_cons. intros [Hne Hnot].
  rewrite filter_cons_True by done. by rewrite IH.
Qed.

Lemma delete_order_missing (order_id : Z) (admin : string) (db : list order) :
  order_id ∉ id <$> db -> delete_order order_id admin db = (Err NotFound, db).
Proof.
  intros Hnot. unfold delete_order.
  rewrite filter_other_ids_all by done. by rewrite Nat.eqb_refl.
Qed.

Lemma delete_order_present (order_id : Z) (admin : string) (db : list order) :
  order_id ∈ id <$> db ->
  delete_order order_id admin db
  = (Ok tt, filter (fun o => id o <> order_id) db).
Proof.
  intros (o & Hid & Ho)%list_elem_of_fmap. unfold delete_order.
  pose proof (length_filter_lt (fun o => id o <> order_id) db o Ho) as Hlt.
  destruct (Nat.eqb_spec (length (filter (fun o => id o <> order_id) db))
              (length db)) as [Heq|]; [|done].
  exfalso. assert (~ id o <> order_id) as Hn by (intros Hn; by apply Hn).
  specialize (Hlt Hn). lia.
Qed.

(** With ids that are all different, one record goes and the rest stays. *)
Lemma filter_other_ids_unique (order_id : Z) (db : list order) :
  NoDup (id <$> db) -> order_id ∈ id <$> db ->
  exists l1 o l2,
    db = l1 ++ o :: l2 /\ id o = order_id
    /\ filter (fun o => id o <> order_id) db = l1 ++ l2.
Proof.
  intros Hnd (o & Hid & Ho)%list_elem_of_fmap.
  apply list_elem_of_split in Ho as (l1 & l2 & ->).
  exists l1, o, l2. split; [done|]. split; [done|].
  rewrite fmap_app, fmap_cons in Hnd.
  apply NoDup_app in Hnd as (_ & Hdisj & Hnd2).
  apply NoDup_cons in Hnd2 as [Hnot2 _].
  rewrite filter_app, filter_cons_False by (intros Hn; by apply Hn).
  subst order_id.
  rewrite (filter_other_ids_all _ l2) by done.
  rewrite (filter_other_ids_all _ l1); [done|].
  intros Hin. apply (Hdisj _ Hin). left.
Qed.

Lemma delete_order_keeps_unique_ids (order_id : Z) (admin : string) (db : list order) :
  NoDup (id <$> db) -> NoDup (id <$> (delete_order order_id admin db).2).
Proof.
  intros Hnd.
  assert (Hs : (delete_order order_id admin db).2
               = filter (fun o => id o <> order_id) db).
  { unfold delete_order. by destruct (Nat.eqb _ _). }
  rewrite Hs. eapply sublist_NoDup; [exact Hnd|].
  apply fmap_sublist, sublist_filter.
Qed.

End DeleteFacts.

(** C8. Deleting an id that no record of the collection has fails with
    NotFound and leaves the collection as it was; deleting an id that is
    present succeeds and leaves exactly the records with another id, in the
    order they had (with ids that are all different: the one record with
    the id is taken out). *)
Theorem delete_order_not_found_or_removed :
  (forall (db : list Store.order) (order_id : Z) (admin : string),
      order_id ∉ Store.id <$> db ->
      Store.delete_order order_id admin db = (Err NotFound, db))
  /\ (forall (db : list Store.order) (order_id : Z) (admin : string),
      order_id ∈ Store.id <$> db ->
      Store.delete_order order_id admin db
      = (Ok tt, filter (fun o => Store.id o <> order_id) db)
      /\ (forall o, o ∈ (Store.delete_order order_id admin db).2
                    <-> o ∈ db /\ Store.id o <> order_id)
      /\ (NoDup (Store.id <$> db) ->
          exists l1 o l2,
            db = l1 ++ o :: l2 /\ Store.id o = order_id
            /\ (Store.delete_order order_id admin db).2 = l1 ++ l2)).
Proof.
  split.
  - intros db order_id admin. apply delete_order_missing.
  - intros db order_id admin Hin.
    rewrite (delete_order_present _ admin _ Hin). split; [done|]. split.
    + intros o. cbn [snd]. rewrite list_elem_of_filter. tauto.
    + intros Hnd. cbn [snd]. by apply filter_other_ids_unique.
Qed.

Lemma delete_order_not_found_or_removed_witness :
  Store.delete_order 26 "admin" Fixtures.seeded = (Err NotFound, Fixtures.seeded)
  /\ Store.delete_order 2 "admin" Fixtures.trio
     = (Ok tt, filter (fun o => Store.id o <> 2) Fixtures.trio).
Proof.
  split.
  - apply (proj1 delete_order_not_found_or_removed Fixtures.seeded 26 "admin").
    apply (bool_decide_unpack _). vm_compute. reflexivity.
  - apply (proj2 delete_order_not_found_or_removed Fixtures.trio 2 "admin").
    apply (bool_decide_unpack _). vm_compute. reflexivity.
Defined.

(** ** Updating *)

Section UpdateFacts.
Import PyStr Price Store.

(** What a successful update leaves behind. *)
Lemma update_order_ok (w : world) (order_id : Z) (nm ud st : string)
    (dl : option string) (image : option UploadFile) (admin : string)
    (db db' : list order) (o' : order) :
  update_order w order_id nm ud st dl image admin db = (Ok o', db') ->
  exists i o,
    list_find (fun o => id o = order_id) db = Some (i, o)
    /\ db' = <[i := o']> db
    /\ id o' = id o /\ created_at o' = created_at o
    /\ name o' = nm /\ udid o' = ud /\ status o' = st
    /\ download_link o' = (if truthy dl then dl else None)
    /\ price o' = Some (extract_price_from_name nm).
Proof.
  unfold update_order.
  destruct (list_find _ db) as [[i o]|] eqn:Hfind; [|done].
  intros H. exists i, o. split; [done|].
  destruct image as [f|]; [destruct (truthy (filename f));
    [destruct (save_upload_file w f order_id)|]|];
    simplify_eq; done.
Qed.

Lemma update_order_keeps_ids (w : world) (order_id : Z) (nm ud st : string)
    (dl : option string) (image : option UploadFile) (admin : string)
    (db : list order) :
  id <$> (update_order w order_id nm ud st dl image admin db).2 = id <$> db.
Proof.
  destruct (update_order w order_id nm ud st dl image admin db)
    as [[o'|e] db'] eqn:E.
  - apply update_order_ok in E as (i & o & Hfind & -> & Hid & _).
    apply list_find_Some in Hfind as (Hi & _).
    cbn [snd]. rewrite list_fmap_insert, Hid.
    apply list_insert_id. by rewrite list_lookup_fmap, Hi.
  - unfold update_order in E.
    destruct (list_find _ db) as [[i o]|]; [|by simplify_eq].
    destruct image as [f|]; [destruct (truthy (filename f));
      [destruct (save_upload_file w f order_id)|]|];
      by simplify_eq.
Qed.

(** The updated record is the one a later read of the id finds. *)
Lemma get_order_after_update (w : world) (order_id : Z) (nm ud st : string)
    (dl : option string) (image : option UploadFile) (admin : string)
    (db db' : list order) (o' : order) :
  update_order w order_id nm ud st dl image admin db = (Ok o', db') ->
  get_order order_id admin db' = Ok (with_price o').
Proof.
  intros (i & o & Hfind & -> & Hid & _)%update_order_ok.
  apply list_find_Some in Hfind as (Hi & Ho & Hfirst).
  unfold get_order.
  assert (list_find (fun o => id o = order_id) (<[i:=o']> db) = Some (i, o'))
    as ->; [|done].
  apply list_find_Some. split; [|split].
  - apply list_lookup_insert_eq. by eapply lookup_lt_Some.
  - congruence.
  - intros j y Hj Hlt. rewrite list_lookup_insert_ne in Hj by lia.
    by eapply Hfirst.
Qed.

End UpdateFacts.

(** C10. An update that gives [download_link] as the empty string is the
    update that leaves the field out: the same outcome and the same
    collection.  When it succeeds, the record it stored (the first one of
    that id, which a later read returns) has no download link. *)
Theorem update_order_empty_download_link :
  (forall (w : Store.world) (order_id : Z) (name udid status : string)
          (image : option Store.UploadFile) (admin : string)
          (db : list Store.order),
      Store.update_order w order_id name udid status (Some "") image admin db
      = Store.update_order w order_id name udid status None image admin db)
  /\ (forall (w : Store.world) (order_id : Z) (name udid status : string)
          (image : option Store.UploadFile) (admin : string)
          (db db' : list Store.order) (o' : Store.order),
      Store.update_order w order_id name udid status (Some "") image admin db
      = (Ok o', db') ->
      Store.download_link o' = None
      /\ Store.id o' = order_id
      /\ (exists i, db' !! i = Some o'
                    /\ forall j o, db' !! j = Some o -> (j < i)%nat ->
                                   Store.id o <> order_id)
      /\ exists r, Store.get_order order_id admin db' = Ok r
                   /\ Store.download_link r = None).
Proof.
  split; [reflexivity|].
  intros w order_id name udid status image admin db db' o' H.
  pose proof (get_order_after_update _ _ _ _ _ _ _ _ _ _ _ H) as Hget.
  apply update_order_ok in H as (i & o & Hfind & -> & Hid & _ & _ & _ & _ & Hdl & _).
  apply list_find_Some in Hfind as (Hi & Ho & Hfirst).
  split; [exact Hdl|]. split; [congruence|]. split.
  - exists i. split.
    + apply list_lookup_insert_eq. by eapply lookup_lt_Some.
    + intros j y Hj Hlt. rewrite list_lookup_insert_ne in Hj by lia.
      by eapply Hfirst.
  - exists (Store.with_price o'). split; [exact Hget | exact Hdl].
Qed.

Lemma update_order_empty_download_link_witness :
  Store.update_order Fixtures.world0 3 "Dummy Item 3 $103" "u3" "approved"
    (Some "") None "admin" Fixtures.seeded
  = (Ok Fixtures.updated3, <[2%nat := Fixtures.updated3]> Fixtures.seeded)
  /\ Store.download_link <$> Fixtures.seeded !! 2%nat
     = Some (Some "http://example.com/download/3")
  /\ Store.download_link Fixtures.updated3 = None.
Proof.
  assert (H : Store.update_order Fixtures.world0 3 "Dummy Item 3 $103" "u3"
                "approved" (Some "") None "admin" Fixtures.seeded
              = (Ok Fixtures.updated3,
                 <[2%nat := Fixtures.updated3]> Fixtures.seeded))
    by (vm_compute; reflexivity).
  split; [exact H|]. split; [reflexivity|].
  apply (proj2 update_order_empty_download_link _ _ _ _ _ _ _ _ _ _ H).
Defined.

(** ** Ids *)

Section IdFacts.
Import Store.

Lemma seeded_ids (clock : Z -> Q) (uuid : Z -> string) :
  id <$> startup_event clock uuid [] = seqZ 1 25.
Proof. reflexivity. Qed.

(** A creation appends a record whose id is the size of the collection
    plus one. *)
Lemma create_order_ids (w : world) (nm ud : string) (image : UploadFile)
    (db : list order) :
  write_ok w = true ->
  id <$> (create_order w nm ud image db).2
  = (id <$> db) ++ [Z.of_nat (length db) + 1].
Proof.
  intros Hw. unfold create_order, save_upload_file. rewrite Hw.
  cbn [snd]. by rewrite fmap_app.
Qed.

(** The ids stay different as long as the new id is taken by no record. *)
Lemma create_order_keeps_unique_ids (w : world) (nm ud : string)
    (image : UploadFile) (db : list order) :
  NoDup (id <$> db) -> Z.of_nat (length db) + 1 ∉ id <$> db ->
  NoDup (id <$> (create_order w nm ud image db).2).
Proof.
  intros Hnd Hfresh. unfold create_order.
  destruct (save_upload_file w image _) as [url|e]; cbn [snd]; [|done].
  rewrite fmap_app. apply NoDup_app. split; [done|]. split.
  - intros x Hx [->|[]%elem_of_nil]%elem_of_cons. by apply Hfresh.
  - apply NoDup_singleton.
Qed.

End IdFacts.

(** C1. Ids do not stay unique: from the seeded collection (ids 1 to 25,
    all different), deleting order 1 and then creating an order gives the
    new order the id 25, which the last seeded order still has. *)
Theorem create_after_delete_reuses_id :
  let db := Store.serve Fixtures.seeded
              [Store.DeleteOrder Auth.ADMIN_TOKEN 1;
               Store.CreateOrder Fixtures.world0 "Case $999" "u1" Fixtures.upload0] in
  NoDup (Store.id <$> Fixtures.seeded)
  /\ Store.id <$> db = seqZ 2 24 ++ [25]
  /\ exists i j o1 o2,
       i <> j /\ db !! i = Some o1 /\ db !! j = Some o2
       /\ Store.id o1 = 25 /\ Store.id o2 = 25
       /\ Store.name o1 = "Dummy Item 25 $125" /\ Store.name o2 = "Case $999".
Proof.
  split; [|split].
  - apply (bool_decide_unpack _). vm_compute. reflexivity.
  - vm_compute. reflexivity.
  - exists 23%nat, 24%nat. eexists. eexists.
    split; [lia|]. split; [vm_compute; reflexivity|].
    split; [vm_compute; reflexivity|]. repeat split.
Qed.

(** ** The stored price *)

Section PriceStored.
Import PyStr Price Store.

Lemma seeded_price_follows_name (clock : Z -> Q) (uuid : Z -> string) :
  Forall price_follows_name (startup_event clock uuid []).
Proof.
  unfold startup_event. rewrite app_nil_l. apply Forall_fmap, Forall_true.
  intros i. by left.
Qed.

Lemma handle_price_follows_name (db : list order) (r : request) :
  Forall price_follows_name db -> Forall price_follows_name (handle db r).
Proof.
  intros Hdb. destruct r as [w nm ud image | token w oid nm ud st dl image | token oid];
    cbn [handle].
  - unfold create_order.
    destruct (save_upload_file w image _) as [url|e]; cbn [snd]; [|done].
    apply Forall_app. split; [done|]. apply Forall_singleton. by right.
  - destruct (Auth.get_current_user token) as [admin|e]; [|done].
    destruct (update_order w oid nm ud st dl image admin db)
      as [[o'|e] db'] eqn:E; cbn [snd].
    + apply update_order_ok in E
        as (i & o & _ & -> & _ & _ & Hn & _ & _ & _ & Hp).
      apply Forall_insert; [done|]. right. by rewrite Hp, Hn.
    + unfold update_order in E.
      destruct (list_find _ db) as [[i o]|]; [|by simplify_eq].
      destruct image as [f|]; [destruct (truthy (filename f));
        [destruct (save_upload_file w f oid)|]|];
        by simplify_eq.
  - destruct (Auth.get_current_user token) as [admin|e]; [|done].
    assert (Hs : (delete_order oid admin db).2
                 = filter (fun o => id o <> oid) db).
    { unfold delete_order. by destruct (Nat.eqb _ _). }
    rewrite Hs. rewrite Forall_forall in Hdb |- *.
    intros o Ho. apply Hdb. apply list_elem_of_filter in Ho. tauto.
Qed.

Lemma serve_price_follows_name (rs : list request) (db : list order) :
  Forall price_follows_name db -> Forall price_follows_name (serve db rs).
Proof.
  revert db. induction rs as [|r rs IH]; intros db Hdb; [done|].
  cbn [serve foldl]. apply IH. by apply handle_price_follows_name.
Qed.

Lemma get_order_ok (order_id : Z) (admin : string) (db : list order) (x : order) :
  get_order order_id admin db = Ok x ->
  exists o, o ∈ db /\ id o = order_id /\ x = with_price o.
Proof.
  unfold get_order.
  destruct (list_find _ db) as [[i o]|] eqn:Hfind; [|done].
  intros [= <-]. apply list_find_Some in Hfind as (Hi & Ho & _).
  exists o. split; [by eapply list_elem_of_lookup_2|done].
Qed.

End PriceStored.

(** C2, as the claim states it, fails: the record that [create_order]
    appends carries a price, and so does a record that [update_order] wrote. *)
Lemma price_stored_by_create_and_update :
  Store.price
    <$> last (Store.create_order Fixtures.world0 "Case $999" "u1"
                Fixtures.upload0 Fixtures.seeded).2
  = Some (Some "999")
  /\ Store.price
       <$> (Store.update_order Fixtures.world0 3 "Dummy Item 3 $103" "u3"
              "approved" None None "admin" Fixtures.seeded).2 !! 2%nat
     = Some (Some "103").
Proof. split; vm_compute; reflexivity. Qed.

(** C2, amended.  [create_order] and [update_order] do store a price on the
    record, namely the price of the name they store with it, and the seeded
    records carry none; so every record held after any sequence of create,
    update and delete requests from the seeded state carries either no
    price or the price of its current name.  Every read response (an item
    of a listing, an order fetched by id) is a stored record with the price
    extracted anew from its name. *)
Theorem stored_price_follows_name :
  (forall (clock : Z -> Q) (uuid : Z -> string) (rs : list Store.request) (o : Store.order),
      o ∈ Store.serve (Store.startup_event clock uuid []) rs ->
      Store.price_follows_name o)
  /\ (forall (clock : Z -> Q) (uuid : Z -> string) (o : Store.order),
      o ∈ Store.startup_event clock uuid [] -> Store.price o = None)
  /\ (forall (w : Store.world) (name udid : string) (image : Store.UploadFile)
             (db db' : list Store.order) (o : Store.order),
      Store.create_order w name udid image db = (Ok o, db') ->
      db' = db ++ [o]
      /\ Store.name o = name
      /\ Store.price o = Some (Price.extract_price_from_name name))
  /\ (forall (w : Store.world) (order_id : Z) (name udid status : string)
             (download_link : option string) (image : option Store.UploadFile)
             (admin : string) (db db' : list Store.order) (o' : Store.order),
      Store.update_order w order_id name udid status download_link image admin db
      = (Ok o', db') ->
      o' ∈ db'
      /\ Store.name o' = name
      /\ Store.price o' = Some (Price.extract_price_from_name name))
  /\ (forall (page page_size : Z) (st q : option string)
             (db : list Store.order) (x : Store.order),
      x ∈ Store.items (Store.list_orders page page_size st q db) ->
      Store.price x = Some (Price.extract_price_from_name (Store.name x))
      /\ exists o, o ∈ db /\ x = Store.with_price o)
  /\ (forall (order_id : Z) (admin : string) (db : list Store.order) (x : Store.order),
      Store.get_order order_id admin db = Ok x ->
      Store.price x = Some (Price.extract_price_from_name (Store.name x))
      /\ exists o, o ∈ db /\ x = Store.with_price o).
Proof.
  split; [|split; [|split; [|split; [|split]]]].
  - intros clock uuid rs o Ho.
    pose proof (serve_price_follows_name rs _
                  (seeded_price_follows_name clock uuid)) as Hall.
    rewrite Forall_forall in Hall. by apply Hall.
  - intros clock uuid o. unfold Store.startup_event. rewrite app_nil_l.
    by intros (i & -> & _)%list_elem_of_fmap.
  - intros w name udid image db db' o. unfold Store.create_order.
    destruct (Store.save_upload_file w image _) as [url|e]; [|done].
    by intros [= <- <-].
  - intros w order_id name udid status dl image admin db db' o' H.
    apply update_order_ok in H
      as (i & o & Hfind & -> & _ & _ & Hn & _ & _ & _ & Hp).
    apply list_find_Some in Hfind as (Hi & _).
    split; [|done]. apply list_elem_of_lookup. exists i.
    apply list_lookup_insert_eq. by eapply lookup_lt_Some.
  - intros page page_size st q db x (o & Ho & ->)%elem_of_items.
    split; [done|]. exists o. split; [|done].
    unfold Store.filtered_orders in Ho.
    by apply by_search_subset, by_status_subset in Ho.
  - intros order_id admin db x (o & Ho & _ & ->)%get_order_ok.
    split; [done|]. by exists o.
Qed.

Lemma stored_price_follows_name_witness :
  Store.price_follows_name Fixtures.updated3.
Proof.
  apply (proj1 stored_price_follows_name Fixtures.clock0 Fixtures.uuid0
           [Store.CreateOrder Fixtures.world0 "Case $999" "u1" Fixtures.upload0;
            Store.UpdateOrder Auth.ADMIN_TOKEN Fixtures.world0 3
              "Dummy Item 3 $103" "u3" "approved" None None]).
  apply list_elem_of_lookup. exists 2%nat. vm_compute. reflexivity.
Defined.

(** * Further properties of the handlers *)

(** ** Reading an order by id *)

Section GetFacts.
Import PyStr Price Store.

Lemma get_order_cons (order_id : Z) (admin : string) (o : order) (db : list order) :
  get_order order_id admin (o :: db)
  = if decide (id o = order_id) then Ok (with_price o)
    else get_order order_id admin db.
Proof.
  unfold get_order. cbn [list_find].
  destruct (decide (id o = order_id)); [done|].
  by destruct (list_find _ db) as [[i x]|].
Qed.

Lemma get_order_app (order_id : Z) (admin : string) (db1 db2 : list order) :
  get_order order_id admin (db1 ++ db2)
  = match get_order order_id admin db1 with
    | Ok x => Ok x
    | Err _ => get_order order_id admin db2
    end.
Proof.
  induction db1 as [|o db1 IH]; cbn [app].
  - done.
  - rewrite !get_order_cons. by destruct (decide (id o = order_id)).
Qed.

Lemma get_order_missing (order_id : Z) (admin : string) (db : list order) :
  order_id ∉ id <$> db <-> get_order order_id admin db = Err NotFound.
Proof.
  induction db as [|o db IH].
  - split; [done|]. intros _. apply not_elem_of_nil.
  - rewrite get_order_cons, fmap_cons, not_elem_of_cons.
    destruct (decide (id o = order_id)) as [Heq|Hne].
    + split; [intros [Hn _]; congruence | done].
    + rewrite <- IH. split; [tauto|]. intros Hn. split; [congruence|done].
Qed.

Lemma get_order_present (order_id : Z) (admin : string) (db : list order) :
  order_id ∈ id <$> db -> exists x, get_order order_id admin db = Ok x.
Proof.
  intros Hin. destruct (get_order order_id admin db) as [x|e] eqn:E; [by exists x|].
  exfalso. assert (e = NotFound) as ->.
  { unfold get_order in E. destruct (list_find _ db) as [[i o]|]; [done|].
    by injection E as <-. }
  by apply get_order_missing in E.
Qed.

Lemma get_order_filter_other (order_id other : Z) (admin : string) (db : list order) :
  other <> order_id ->
  get_order other admin (filter (fun o => id o <> order_id) db)
  = get_order other admin db.
Proof.
  intros Hne. induction db as [|o db IH]; [done|].
  rewrite get_order_cons.
  destruct (decide (id o = order_id)) as [Heq|Hneq].
  - rewrite filter_cons_False by (intros Hn; by apply Hn).
    rewrite IH. destruct (decide (id o = other)); [congruence|done].
  - rewrite filter_cons_True by done. rewrite get_order_cons.
    by destruct (decide (id o = other)).
Qed.

Lemma delete_order_state (order_id : Z) (admin : string) (db : list order) :
  (delete_order order_id admin db).2 = filter (fun o => id o <> order_id) db.
Proof. unfold delete_order. by destruct (Nat.eqb _ _). Qed.

Lemma create_order_ok (w : world) (nm ud : string) (image : UploadFile)
    (db db' : list order) (o : order) :
  create_order w nm ud image db = (Ok o, db') ->
  write_ok w = true /\ db' = db ++ [o]
  /\ id o = Z.of_nat (length db) + 1 /\ name o = nm /\ udid o = ud
  /\ status o = "pending" /\ download_link o = None /\ created_at o = now w
  /\ price o = Some (extract_price_from_name nm)
  /\ with_price o = o.
Proof.
  unfold create_order, save_upload_file.
  destruct (write_ok w); [|done]. intros [= <- <-]. by repeat split.
Qed.

End GetFacts.

(** X1. Reading an id fails with NotFound exactly when no record has the
    id, and fails in no other way; otherwise the answer is the first record
    of that id in the collection, unchanged but for the price, which is the
    price of its name. *)
Theorem get_order_first_record :
  forall (order_id : Z) (admin : string) (db : list Store.order),
    (order_id ∉ Store.id <$> db <-> Store.get_order order_id admin db = Err NotFound)
    /\ (forall e, Store.get_order order_id admin db = Err e -> e = NotFound)
    /\ (forall x, Store.get_order order_id admin db = Ok x ->
          exists i o,
            db !! i = Some o /\ Store.id o = order_id
            /\ (forall j o', db !! j = Some o' -> (j < i)%nat -> Store.id o' <> order_id)
            /\ Routes.clear_price x = Routes.clear_price o
            /\ Store.price x = Some (Price.extract_price_from_name (Store.name o))).
Proof.
  intros order_id admin db. split; [apply get_order_missing|]. split.
  - unfold Store.get_order. destruct (list_find _ db) as [[i o]|]; [done|].
    by intros e [= <-].
  - intros x. unfold Store.get_order.
    destruct (list_find _ db) as [[i o]|] eqn:Hf; [|done].
    intros [= <-]. apply list_find_Some in Hf as (Hi & Ho & Hfirst).
    exists i, o. repeat split; done.
Qed.

Lemma get_order_first_record_witness :
  Store.get_order 26 "admin" Fixtures.seeded = Err NotFound.
Proof.
  apply (proj1 (get_order_first_record 26 "admin" Fixtures.seeded)).
  apply (bool_decide_unpack _). vm_compute. reflexivity.
Defined.

(** X2. After a deletion the id can no longer be read, whether the
    deletion found a record or not, and every other id reads as before. *)
Theorem get_order_after_delete :
  forall (order_id : Z) (admin : string) (db : list Store.order),
    Store.get_order order_id admin (Store.delete_order order_id admin db).2
    = Err NotFound
    /\ forall other, other <> order_id ->
         Store.get_order other admin (Store.delete_order order_id admin db).2
         = Store.get_order other admin db.
Proof.
  intros order_id admin db. rewrite delete_order_state. split.
  - apply get_order_missing. intros (o & Hid & Ho)%list_elem_of_fmap.
    apply list_elem_of_filter in Ho as [Hne _]. by apply Hne.
  - intros other Hne. by apply get_order_filter_other.
Qed.

Lemma get_order_after_delete_witness :
  Store.get_order 4 "admin" (Store.delete_order 3 "admin" Fixtures.seeded).2
  = Store.get_order 4 "admin" Fixtures.seeded.
Proof.
  apply (proj2 (get_order_after_delete 3 "admin" Fixtures.seeded) 4). lia.
Defined.

(** X3. A creation changes no read of an id that was present.  The new
    order is what a read of its id returns exactly when no earlier record
    has that id; when one has it, the read keeps returning the earlier
    record and the new order cannot be fetched by its id. *)
Theorem get_order_after_create :
  forall (w : Store.world) (name udid : string) (image : Store.UploadFile)
         (admin : string) (db db' : list Store.order) (o : Store.order),
    Store.create_order w name udid image db = (Ok o, db') ->
    (forall order_id, order_id ∈ Store.id <$> db ->
       Store.get_order order_id admin db' = Store.get_order order_id admin db)
    /\ (Store.id o ∉ Store.id <$> db ->
        Store.get_order (Store.id o) admin db' = Ok o)
    /\ (Store.id o ∈ Store.id <$> db ->
        exists old, old ∈ db /\ Store.id old = Store.id o
                    /\ Store.get_order (Store.id o) admin db'
                       = Ok (Store.with_price old)).
Proof.
  intros w name udid image admin db db' o H.
  apply create_order_ok in H as (_ & -> & _ & _ & _ & _ & _ & _ & _ & Hwp).
  split; [|split].
  - intros order_id Hin. rewrite get_order_app.
    by destruct (get_order_present _ admin _ Hin) as [x ->].
  - intros Hfresh. rewrite get_order_app.
    apply (get_order_missing _ admin) in Hfresh. rewrite Hfresh.
    rewrite get_order_cons, decide_True by done. by rewrite Hwp.
  - intros Hin. rewrite get_order_app.
    destruct (get_order_present _ admin _ Hin) as [x Hx]. rewrite Hx.
    apply get_order_ok in Hx as (old & Hold & Hid & ->). by exists old.
Qed.

Lemma get_order_after_create_witness :
  Store.get_order 26 "admin"
    (Store.create_order Fixtures.world0 "Case $999" "u1" Fixtures.upload0
       Fixtures.seeded).2
  = (Store.create_order Fixtures.world0 "Case $999" "u1" Fixtures.upload0
       Fixtures.seeded).1.
Proof.
  refine (proj1 (proj2 (get_order_after_create Fixtures.world0 "Case $999" "u1"
            Fixtures.upload0 "admin" Fixtures.seeded _ _ eq_refl)) _).
  apply (bool_decide_unpack _). vm_compute. reflexivity.
Defined.

(** ** Updating: failures and what stays *)

Section UpdateMore.
Import PyStr Price Store.

Lemma list_find_id_None (order_id : Z) (db : list order) :
  list_find (fun o => id o = order_id) db = None <-> order_id ∉ id <$> db.
Proof.
  rewrite list_find_None, Forall_forall. split.
  - intros H (o & Hid & Ho)%list_elem_of_fmap. by apply (H o Ho).
  - intros H o Ho Hid. apply H. apply list_elem_of_fmap. by exists o.
Qed.

Lemma update_order_err (w : world) (order_id : Z) (nm ud st : string)
    (dl : option string) (image : option UploadFile) (admin : string)
    (db db' : list order) (e : http_error) :
  update_order w order_id nm ud st dl image admin db = (Err e, db') ->
  db' = db
  /\ ((e = NotFound /\ order_id ∉ id <$> db)
      \/ (e = StorageError /\ order_id ∈ id <$> db /\ write_ok w = false
          /\ exists f, image = Some f /\ truthy (filename f) = true)).
Proof.
  unfold update_order.
  destruct (list_find _ db) as [[i o]|] eqn:Hf.
  - assert (Hin : order_id ∈ id <$> db).
    { apply list_find_Some in Hf as (Hi & Ho & _).
      apply list_elem_of_fmap. exists o. split; [done|].
      by eapply list_elem_of_lookup_2. }
    destruct image as [f|]; [|done].
    destruct (truthy (filename f)) eqn:Ht; [|done].
    unfold save_upload_file. destruct (write_ok w) eqn:Hw; [done|].
    intros [= <- <-]. split; [done|]. right. repeat split; try done. by exists f.
  - intros [= <- <-]. split; [done|]. left. split; [done|].
    by apply list_find_id_None.
Qed.

End UpdateMore.

(** X4. An update that fails changes nothing.  It fails with NotFound
    exactly when no record has the id, and otherwise only with the storage
    error, when a named image was supplied and its write failed; with the id
    present and no image it always succeeds. *)
Theorem update_order_fails_without_change :
  (forall (w : Store.world) (order_id : Z) (name udid status : string)
          (dl : option string) (image : option Store.UploadFile) (admin : string)
          (db db' : list Store.order) (e : http_error),
      Store.update_order w order_id name udid status dl image admin db = (Err e, db') ->
      db' = db
      /\ ((e = NotFound /\ order_id ∉ Store.id <$> db)
          \/ (e = StorageError /\ order_id ∈ Store.id <$> db
              /\ Store.write_ok w = false
              /\ exists f, image = Some f
                           /\ PyStr.truthy (Store.filename f) = true)))
  /\ (forall (w : Store.world) (order_id : Z) (name udid status : string)
          (dl : option string) (image : option Store.UploadFile) (admin : string)
          (db : list Store.order),
      order_id ∉ Store.id <$> db ->
      Store.update_order w order_id name udid status dl image admin db
      = (Err NotFound, db))
  /\ (forall (w : Store.world) (order_id : Z) (name udid status : string)
          (dl : option string) (admin : string) (db : list Store.order),
      order_id ∈ Store.id <$> db ->
      exists o' db',
        Store.update_order w order_id name udid status dl None admin db
        = (Ok o', db')).
Proof.
  split; [|split].
  - intros. by eapply update_order_err.
  - intros w order_id name udid status dl image admin db Hnot.
    apply list_find_id_None in Hnot. unfold Store.update_order. by rewrite Hnot.
  - intros w order_id name udid status dl admin db Hin.
    unfold Store.update_order.
    destruct (list_find _ db) as [[i o]|] eqn:Hf; [by eauto|].
    by apply list_find_id_None in Hf.
Qed.

Lemma update_order_fails_without_change_witness :
  Store.update_order Fixtures.world0 0 "n" "u" "pending" None None "admin"
    Fixtures.seeded
  = (Err NotFound, Fixtures.seeded).
Proof.
  apply (proj1 (proj2 update_order_fails_without_change)).
  apply (bool_decide_unpack _). vm_compute. reflexivity.
Defined.

(** X5. A successful update rewrites one record, the first of that id, and
    nothing else: the collection keeps its length, every other position
    keeps its record, and the rewritten record keeps its id and its
    creation time; without a named image it keeps its image path. *)
Theorem update_order_touches_one_record :
  forall (w : Store.world) (order_id : Z) (name udid status : string)
         (dl : option string) (image : option Store.UploadFile) (admin : string)
         (db db' : list Store.order) (o' : Store.order),
    Store.update_order w order_id name udid status dl image admin db = (Ok o', db') ->
    exists i old,
      db !! i = Some old /\ db' !! i = Some o'
      /\ (forall j o, db !! j = Some o -> (j < i)%nat -> Store.id o <> order_id)
      /\ length db' = length db
      /\ (forall j, j <> i -> db' !! j = db !! j)
      /\ Store.id o' = order_id /\ Store.id old = order_id
      /\ Store.created_at o' = Store.created_at old
      /\ Store.name o' = name /\ Store.udid o' = udid /\ Store.status o' = status
      /\ ((image = None \/ exists f, image = Some f
                                     /\ PyStr.truthy (Store.filename f) = false) ->
          Store.image_url o' = Store.image_url old).
Proof.
  intros w order_id name udid status dl image admin db db' o' H.
  assert (Himg : forall i old,
    list_find (fun o => Store.id o = order_id) db = Some (i, old) ->
    (image = None \/ exists f, image = Some f
                               /\ PyStr.truthy (Store.filename f) = false) ->
    Store.image_url o' = Store.image_url old).
  { intros i old Hf Hno. unfold Store.update_order in H. rewrite Hf in H.
    destruct Hno as [->|(f & -> & Ht)]; [|rewrite Ht in H]; by simplify_eq. }
  pose proof H as H0.
  apply update_order_ok in H0
    as (i & old & Hf & -> & Hid & Hc & Hn & Hu & Hs & _ & _).
  specialize (Himg i old Hf).
  apply list_find_Some in Hf as (Hi & Ho & Hfirst).
  exists i, old. split; [done|]. split.
  { apply list_lookup_insert_eq. by eapply lookup_lt_Some. }
  split; [intros j o Hj Hlt; by eapply Hfirst|].
  split; [apply length_insert|].
  split; [intros j Hj; by apply list_lookup_insert_ne|].
  repeat split; try done. congruence.
Qed.

Lemma update_order_touches_one_record_witness :
  Store.image_url Fixtures.updated3 = "/images/default.jpg"
  /\ length (<[2%nat := Fixtures.updated3]> Fixtures.seeded) = 25%nat.
Proof.
  assert (H : Store.update_order Fixtures.world0 3 "Dummy Item 3 $103" "u3"
                "approved" None None "admin" Fixtures.seeded
              = (Ok Fixtures.updated3,
                 <[2%nat := Fixtures.updated3]> Fixtures.seeded))
    by (vm_compute; reflexivity).
  destruct (update_order_touches_one_record _ _ _ _ _ _ _ _ _ _ _ H)
    as (i & old & _ & _ & _ & Hlen & _).
  split; [reflexivity | exact Hlen].
Defined.

(** ** Creating, then deleting *)

Section LifecycleFacts.
Import PyStr Price Store.

Lemma delete_last_fresh (admin : string) (db : list order) (o : order) :
  id o ∉ id <$> db -> delete_order (id o) admin (db ++ [o]) = (Ok tt, db).
Proof.
  intros Hfresh. rewrite delete_order_present.
  - rewrite filter_app, filter_other_ids_all by done.
    rewrite filter_cons_False by (intros Hn; by apply Hn).
    by rewrite filter_nil, app_nil_r.
  - rewrite fmap_app. apply elem_of_app. right. apply list_elem_of_singleton.
    done.
Qed.

Lemma list_find_last_fresh (db : list order) (o : order) :
  id o ∉ id <$> db ->
  list_find (fun x => id x = id o) (db ++ [o]) = Some (length db, o).
Proof.
  intros Hfresh. apply list_find_id_None in Hfresh.
  rewrite list_find_app_r by done. cbn [list_find].
  by rewrite decide_True.
Qed.

Lemma insert_last {A : Type} (l : list A) (x y : A) :
  <[length l := y]> (l ++ [x]) = l ++ [y].
Proof.
  rewrite insert_app_r_alt by lia. by rewrite Nat.sub_diag.
Qed.

Lemma handle_length (db : list order) (r : request) :
  Routes.keeps_records r = true -> (length db <= length (handle db r))%nat.
Proof.
  destruct r as [w nm ud image | token w oid nm ud st dl image | token oid];
    [| |done]; intros _; cbn [handle].
  - unfold create_order. destruct (save_upload_file _ _ _); cbn [snd]; [|done].
    rewrite length_app. lia.
  - destruct (Auth.get_current_user token) as [admin|e]; [|done].
    pose proof (update_order_keeps_ids w oid nm ud st dl image admin db) as H.
    apply (f_equal length) in H. rewrite !length_fmap in H. lia.
Qed.

Lemma handle_counts_up (db : list order) (r : request) :
  Routes.keeps_records r = true ->
  id <$> db = seqZ 1 (Z.of_nat (length db)) ->
  id <$> handle db r = seqZ 1 (Z.of_nat (length (handle db r))).
Proof.
  destruct r as [w nm ud image | token w oid nm ud st dl image | token oid];
    [| |done]; intros _ Hids; cbn [handle].
  - unfold create_order. destruct (save_upload_file _ _ _); cbn [snd]; [|done].
    rewrite fmap_app, length_app, Hids. cbn [length fmap list_fmap].
    replace (length db + 1)%nat with (S (length db)) by lia.
    rewrite seqZ_S. cbn [id]. do 2 f_equal. lia.
  - destruct (Auth.get_current_user token) as [admin|e]; [|done].
    pose proof (update_order_keeps_ids w oid nm ud st dl image admin db) as H.
    rewrite H. apply (f_equal length) in H. rewrite !length_fmap in H.
    by rewrite H.
Qed.

End LifecycleFacts.

(** X6. Deleting an order right after it was created gives back the
    collection as it was before the creation, provided the id it was given
    was free.  When an earlier record already has the id, the deletion
    removes that record too: fewer records remain than before the
    creation. *)
Theorem delete_undoes_create :
  forall (w : Store.world) (name udid : string) (image : Store.UploadFile)
         (admin : string) (db db' : list Store.order) (o : Store.order),
    Store.create_order w name udid image db = (Ok o, db') ->
    (Store.id o ∉ Store.id <$> db ->
     Store.delete_order (Store.id o) admin db' = (Ok tt, db))
    /\ (Store.id o ∈ Store.id <$> db ->
        (length (Store.delete_order (Store.id o) admin db').2 < length db)%nat).
Proof.
  intros w name udid image admin db db' o H.
  apply create_order_ok in H as (_ & -> & _).
  split.
  - apply delete_last_fresh.
  - intros (old & Hid & Hold)%list_elem_of_fmap.
    rewrite delete_order_state, filter_app.
    rewrite (filter_cons_False _ o) by (intros Hn; by apply Hn).
    rewrite filter_nil, app_nil_r.
    apply (length_filter_lt _ db old Hold). intros Hn. by apply Hn.
Qed.

Lemma delete_undoes_create_witness :
  Store.delete_order 26 "admin"
    (Store.create_order Fixtures.world0 "Case $999" "u1" Fixtures.upload0
       Fixtures.seeded).2
  = (Ok tt, Fixtures.seeded).
Proof.
  refine (proj1 (delete_undoes_create Fixtures.world0 "Case $999" "u1"
            Fixtures.upload0 "admin" Fixtures.seeded _ _ eq_refl) _).
  apply (bool_decide_unpack _). vm_compute. reflexivity.
Defined.

(** X7. As long as no deletion is served, the ids of the collection are
    1, 2, ..., n in this order: from a collection numbered that way (the
    seeded one is), any sequence of creations and updates, failed ones and
    refused ones included, leaves it numbered that way, so the ids are all
    different and a new order gets an id above every earlier one. *)
Theorem ids_count_up_without_delete :
  forall (db : list Store.order) (rs : list Store.request),
    Store.id <$> db = seqZ 1 (Z.of_nat (length db)) ->
    forallb Routes.keeps_records rs = true ->
    Store.id <$> Store.serve db rs
    = seqZ 1 (Z.of_nat (length (Store.serve db rs)))
    /\ NoDup (Store.id <$> Store.serve db rs)
    /\ (length db <= length (Store.serve db rs))%nat.
Proof.
  intros db rs Hids Hrs.
  assert (H : Store.id <$> Store.serve db rs
              = seqZ 1 (Z.of_nat (length (Store.serve db rs)))
              /\ (length db <= length (Store.serve db rs))%nat).
  { revert db Hids. induction rs as [|r rs IH]; intros db Hids; [done|].
    cbn [forallb] in Hrs. apply andb_true_iff in Hrs as [Hr Hrs].
    cbn [Store.serve foldl].
    destruct (IH Hrs (Store.handle db r)) as [IH1 IH2].
    { by apply handle_counts_up. }
    split; [exact IH1|].
    pose proof (handle_length db r Hr). unfold Store.serve in IH2. lia. }
  destruct H as [H1 H2]. split; [done|]. split; [|done].
  rewrite H1. apply NoDup_seqZ.
Qed.

Lemma ids_count_up_without_delete_witness :
  NoDup (Store.id <$> Store.serve Fixtures.seeded
           [Store.CreateOrder Fixtures.world0 "Case $999" "u1" Fixtures.upload0;
            Store.UpdateOrder Auth.ADMIN_TOKEN Fixtures.world0 3
              "Dummy Item 3 $103" "u3" "approved" None None;
            Store.CreateOrder Fixtures.world0 "Two" "u2" Fixtures.upload0]).
Proof.
  apply ids_count_up_without_delete; reflexivity.
Defined.

(** X8. The three admin routes on orders refuse every token but the
    static one with Unauthorized and leave the collection as it is; with
    the static token they are the handlers, run for the admin user. *)
Theorem order_routes_need_the_token :
  (forall (token : string) (w : Store.world) (order_id : Z)
          (name udid status : string) (dl : option string)
          (image : option Store.UploadFile) (db : list Store.order),
      token <> Auth.ADMIN_TOKEN ->
      Routes.GET_order token order_id db = Err Unauthorized
      /\ Routes.PUT_order token w order_id name udid status dl image db
         = (Err Unauthorized, db)
      /\ Routes.DELETE_order token order_id db = (Err Unauthorized, db)
      /\ Store.handle db (Store.UpdateOrder token w order_id name udid status dl image)
         = db
      /\ Store.handle db (Store.DeleteOrder token order_id) = db)
  /\ (forall (w : Store.world) (order_id : Z) (name udid status : string)
          (dl : option string) (image : option Store.UploadFile)
          (db : list Store.order),
      Routes.GET_order Auth.ADMIN_TOKEN order_id db
      = Store.get_order order_id Auth.ADMIN_USERNAME db
      /\ Routes.PUT_order Auth.ADMIN_TOKEN w order_id name udid status dl image db
         = Store.update_order w order_id name udid status dl image
             Auth.ADMIN_USERNAME db
      /\ Routes.DELETE_order Auth.ADMIN_TOKEN order_id db
         = Store.delete_order order_id Auth.ADMIN_USERNAME db).
Proof.
  split.
  - intros token w order_id name udid status dl image db Hne.
    unfold Routes.GET_order, Routes.PUT_order, Routes.DELETE_order.
    cbn [Store.handle]. by rewrite (authorize_err token Hne).
  - intros. by repeat split.
Qed.

Lemma order_routes_need_the_token_witness :
  Routes.DELETE_order "" 1 Fixtures.seeded = (Err Unauthorized, Fixtures.seeded).
Proof.
  apply (proj1 order_routes_need_the_token "" Fixtures.world0 1 "" "" "" None None
           Fixtures.seeded).
  discriminate.
Defined.

(** X9. The life of an order: created with a free id, then approved by the
    admin with a download link, it reads back approved, with the link, and
    with the price, creation time and image path it was created with;
    deleted, it can no longer be read and the collection is the one before
    the creation. *)
Theorem order_lifecycle :
  forall (w w2 : Store.world) (name udid link : string) (image : Store.UploadFile)
         (db db1 : list Store.order) (o : Store.order),
    Store.create_order w name udid image db = (Ok o, db1) ->
    Store.id o ∉ Store.id <$> db ->
    link <> "" ->
    exists o2 db2,
      Routes.PUT_order Auth.ADMIN_TOKEN w2 (Store.id o) name udid "approved"
        (Some link) None db1 = (Ok o2, db2)
      /\ Routes.GET_order Auth.ADMIN_TOKEN (Store.id o) db2 = Ok o2
      /\ Store.status o = "pending" /\ Store.download_link o = None
      /\ Store.status o2 = "approved" /\ Store.download_link o2 = Some link
      /\ Store.price o2 = Some (Price.extract_price_from_name name)
      /\ Store.price o2 = Store.price o
      /\ Store.created_at o2 = Store.created_at o
      /\ Store.image_url o2 = Store.image_url o
      /\ Routes.DELETE_order Auth.ADMIN_TOKEN (Store.id o) db2 = (Ok tt, db)
      /\ Routes.GET_order Auth.ADMIN_TOKEN (Store.id o) db = Err NotFound.
Proof.
  intros w w2 name udid link image db db1 o H Hfresh Hlink.
  apply create_order_ok in H
    as (_ & -> & Hid & Hn & Hu & Hs & Hd & Hc & Hp & Hwp).
  set (o2 := {| Store.id := Store.id o; Store.name := name; Store.udid := udid;
                Store.image_url := Store.image_url o;
                Store.status := "approved"; Store.download_link := Some link;
                Store.created_at := Store.created_at o;
                Store.price := Some (Price.extract_price_from_name name) |}).
  assert (Hput : Store.update_order w2 (Store.id o) name udid "approved"
                   (Some link) None Auth.ADMIN_USERNAME (db ++ [o])
                 = (Ok o2, db ++ [o2])).
  { unfold Store.update_order. rewrite list_find_last_fresh by done.
    rewrite insert_last. by destruct link. }
  exists o2, (db ++ [o2]).
  unfold Routes.PUT_order, Routes.GET_order, Routes.DELETE_order.
  change (Auth.get_current_user Auth.ADMIN_TOKEN) with (Ok Auth.ADMIN_USERNAME).
  split; [exact Hput|]. split.
  { rewrite get_order_app.
    apply (get_order_missing _ Auth.ADMIN_USERNAME) in Hfresh as ->.
    by rewrite get_order_cons, decide_True. }
  repeat split;
    first [ done
          | by rewrite Hp
          | by apply (delete_last_fresh Auth.ADMIN_USERNAME db o2)
          | by apply get_order_missing ].
Qed.

Lemma order_lifecycle_witness :
  exists o2 db2,
    Routes.PUT_order Auth.ADMIN_TOKEN Fixtures.world0 26 "Case $999" "u1"
      "approved" (Some "http://x/1") None
      (Store.create_order Fixtures.world0 "Case $999" "u1" Fixtures.upload0
         Fixtures.seeded).2
    = (Ok o2, db2)
    /\ Store.price o2 = Some "999"
    /\ Routes.DELETE_order Auth.ADMIN_TOKEN 26 db2 = (Ok tt, Fixtures.seeded).
Proof.
  destruct (order_lifecycle Fixtures.world0 Fixtures.world0 "Case $999" "u1"
              "http://x/1" Fixtures.upload0 Fixtures.seeded _ _ eq_refl)
    as (o2 & db2 & Hput & _ & _ & _ & _ & _ & Hp & _ & _ & _ & Hdel & _).
  - apply (bool_decide_unpack _). vm_compute. reflexivity.
  - discriminate.
  - exists o2, db2. split; [exact Hput|]. split; [exact Hp | exact Hdel].
Defined.

(** ** Listing: pages, odd page numbers, filters *)

Section PagingFacts.
Import PyStr Price PyList Store.

Lemma items_take_drop (page page_size : Z) (st q : option string) (db : list order) :
  1 <= page -> 0 <= page_size ->
  items (list_orders page page_size st q db)
  = with_price
      <$> take (Z.to_nat page_size)
            (drop (Z.to_nat (page - 1) * Z.to_nat page_size)
               (sorted_orders st q db)).
Proof.
  intros Hp Hs. unfold list_orders. cbn [items]. f_equal.
  rewrite slice_take_drop by nia. do 2 f_equal. nia.
Qed.

Lemma slice_sublist {A : Type} (l : list A) (a b : Z) : slice l a b `sublist_of` l.
Proof. unfold slice. etrans; [apply sublist_take | apply sublist_drop]. Qed.

Lemma slice_fmap {A B : Type} (f : A -> B) (l : list A) (a b : Z) :
  slice (f <$> l) a b = f <$> slice l a b.
Proof. unfold slice. by rewrite length_fmap, fmap_take, fmap_drop. Qed.

Lemma insert_desc_fmap {A : Type} (key : A -> Q) (f : A -> A) (x : A) (l : list A) :
  (forall a, key (f a) = key a) ->
  insert_desc key (f x) (f <$> l) = f <$> insert_desc key x l.
Proof.
  intros Hk. induction l as [|y l IH]; [done|].
  cbn [fmap list_fmap insert_desc]. rewrite !Hk.
  destruct (Qltb (key x) (key y)); [|done].
  cbn [fmap list_fmap]. f_equal. exact IH.
Qed.

Lemma sorted_reverse_fmap {A : Type} (key : A -> Q) (f : A -> A) (l : list A) :
  (forall a, key (f a) = key a) ->
  sorted_reverse key (f <$> l) = f <$> sorted_reverse key l.
Proof.
  intros Hk. induction l as [|x l IH]; [done|].
  cbn [fmap list_fmap sorted_reverse]. fold (fmap f l).
  by rewrite IH, insert_desc_fmap.
Qed.

Lemma filter_fmap_same {A : Type} (P : A -> Prop) `{!forall x, Decision (P x)}
    (f : A -> A) (l : list A) :
  (forall a, P (f a) <-> P a) ->
  filter P (f <$> l) = f <$> filter P l.
Proof.
  intros HP. induction l as [|x l IH]; [done|]. rewrite fmap_cons.
  destruct (decide (P x)) as [Hx|Hx].
  - rewrite (filter_cons_True P (f x)) by by apply HP.
    rewrite (filter_cons_True P x) by done. by rewrite IH.
  - rewrite (filter_cons_False P (f x)) by (by rewrite HP).
    rewrite (filter_cons_False P x) by done. exact IH.
Qed.

Lemma filtered_orders_clear_price (st q : option string) (db : list order) :
  filtered_orders st q (Routes.clear_price <$> db)
  = Routes.clear_price <$> filtered_orders st q db.
Proof.
  unfold filtered_orders.
  assert (Hs : by_status st (Routes.clear_price <$> db)
               = Routes.clear_price <$> by_status st db).
  { unfold by_status. destruct st as [s|]; [|done].
    destruct (status_applies (Some s)); [|done].
    by apply filter_fmap_same. }
  rewrite Hs. unfold by_search. destruct q as [s|]; [|done].
  destruct (truthy (Some s)); [|done]. by apply filter_fmap_same.
Qed.

Lemma list_orders_clear_price (page page_size : Z) (st q : option string)
    (db : list order) :
  list_orders page page_size st q (Routes.clear_price <$> db)
  = list_orders page page_size st q db.
Proof.
  unfold list_orders. rewrite filtered_orders_clear_price.
  rewrite sorted_reverse_fmap by done.
  rewrite slice_fmap, length_fmap, <- list_fmap_compose. done.
Qed.

Lemma get_order_clear_price (order_id : Z) (admin : string) (db : list order) :
  get_order order_id admin (Routes.clear_price <$> db)
  = get_order order_id admin db.
Proof.
  induction db as [|o db IH]; [done|].
  rewrite fmap_cons, !get_order_cons, IH. done.
Qed.

End PagingFacts.

(** X10. The pages of a listing follow one another without gap or
    overlap: for a page size of at least 1, pages 1 to [k] put end to end
    are the first [k * page_size] filtered and sorted orders, hence all of
    them once [k * page_size] reaches the total; and a page never holds
    more than [page_size] items. *)
Theorem list_orders_pages_tile :
  forall (db : list Store.order) (st q : option string) (page_size : Z) (k : nat),
    1 <= page_size ->
    mjoin ((fun p => Store.items (Store.list_orders (Z.of_nat p) page_size st q db))
             <$> seq 1 k)
    = Store.with_price
        <$> take (k * Z.to_nat page_size) (Store.sorted_orders st q db)
    /\ (Z.of_nat (length (Store.filtered_orders st q db)) <= Z.of_nat k * page_size ->
        mjoin ((fun p => Store.items (Store.list_orders (Z.of_nat p) page_size st q db))
                 <$> seq 1 k)
        = Store.with_price <$> Store.sorted_orders st q db)
    /\ (forall page, 1 <= page ->
        Z.of_nat (length (Store.items (Store.list_orders page page_size st q db)))
        <= page_size).
Proof.
  intros db st q page_size k Hs.
  assert (Htile :
    mjoin ((fun p => Store.items (Store.list_orders (Z.of_nat p) page_size st q db))
             <$> seq 1 k)
    = Store.with_price
        <$> take (k * Z.to_nat page_size) (Store.sorted_orders st q db)).
  { induction k as [|k IH]; [done|].
    rewrite seq_S, fmap_app, join_app, IH.
    change (mjoin ((fun p => Store.items
              (Store.list_orders (Z.of_nat p) page_size st q db)) <$> [(1 + k)%nat]))
      with (Store.items (Store.list_orders (Z.of_nat (1 + k)) page_size st q db)
            ++ []).
    rewrite app_nil_r, items_take_drop by lia.
    rewrite <- fmap_app. f_equal.
    replace (Z.to_nat (Z.of_nat (1 + k) - 1)) with k by lia.
    rewrite take_take_drop. f_equal. lia. }
  split; [exact Htile|]. split.
  - intros Hall. rewrite Htile. f_equal. apply take_ge.
    unfold Store.sorted_orders. rewrite length_sorted_reverse. nia.
  - intros page Hp. rewrite items_take_drop by lia.
    rewrite length_fmap.
    pose proof (firstn_le_length (Z.to_nat page_size)
      (drop (Z.to_nat (page - 1) * Z.to_nat page_size)
         (Store.sorted_orders st q db))). lia.
Qed.

Lemma list_orders_pages_tile_witness :
  Store.items (Store.list_orders 1 10 None None Fixtures.seeded)
  ++ Store.items (Store.list_orders 2 10 None None Fixtures.seeded)
  ++ Store.items (Store.list_orders 3 10 None None Fixtures.seeded)
  = Store.with_price <$> Store.sorted_orders None None Fixtures.seeded.
Proof.
  rewrite <- (proj1 (proj2 (list_orders_pages_tile Fixtures.seeded None None 10 3
                             ltac:(lia)))).
  - vm_compute. reflexivity.
  - vm_compute. discriminate.
Defined.

(** X11. Page numbers and page sizes are not checked, and no value of
    them makes a listing fail: [total] is the number of filtered orders and
    the items are a stretch of the sorted listing, whatever they are.  A
    page size of 0 gives no items, and so does page 0 (with a page size
    that is not negative); page 1 with the negative page size [-k] gives
    the whole listing without its last [k] orders. *)
Theorem list_orders_unchecked_pages :
  forall (db : list Store.order) (st q : option string),
    (forall page page_size,
        Store.total (Store.list_orders page page_size st q db)
        = Z.of_nat (length (Store.filtered_orders st q db))
        /\ Store.items (Store.list_orders page page_size st q db)
           `sublist_of` (Store.with_price <$> Store.sorted_orders st q db))
    /\ (forall page, Store.items (Store.list_orders page 0 st q db) = [])
    /\ (forall page_size, 0 <= page_size ->
        Store.items (Store.list_orders 0 page_size st q db) = [])
    /\ (forall k, 0 < k ->
        Store.items (Store.list_orders 1 (- k) st q db)
        = Store.with_price
            <$> take (length (Store.sorted_orders st q db) - Z.to_nat k)
                  (Store.sorted_orders st q db)).
Proof.
  intros db st q. split; [|split; [|split]].
  - intros page page_size. split; [apply total_filtered|].
    unfold Store.list_orders. cbn [Store.items].
    apply fmap_sublist, slice_sublist.
  - intros page. unfold Store.list_orders. cbn [Store.items].
    replace ((page - 1) * 0) with 0 by lia.
    unfold PyList.slice, PyList.slice_bound. cbn [Z.ltb Z.compare Z.add].
    by rewrite Z.sub_diag.
  - intros page_size Hs. unfold Store.list_orders. cbn [Store.items].
    unfold PyList.slice, PyList.slice_bound.
    replace ((0 - 1) * page_size + page_size) with 0 by lia.
    cbn [Z.ltb Z.compare].
    set (n := Z.of_nat _).
    replace (Z.to_nat (Z.min 0 n - _)) with 0%nat; [done|].
    destruct (Z.ltb_spec ((0 - 1) * page_size) 0); subst n; lia.
  - intros k Hk. unfold Store.list_orders. cbn [Store.items]. f_equal.
    unfold Store.sorted_orders, PyList.slice, PyList.slice_bound.
    replace ((1 - 1) * - k) with 0 by lia. cbn [Z.ltb Z.compare].
    set (l := PyList.sorted_reverse _ _).
    destruct (Z.ltb_spec (0 + - k) 0) as [_|]; [|lia].
    rewrite (Z.min_l 0) by lia. change (Z.to_nat 0) with 0%nat.
    rewrite drop_0. f_equal. lia.
Qed.

(** X12. The two filters do not depend on their order and only ever
    select records of the collection: with a known status and a search
    text the orders drawn from are those that pass both tests, in the order
    of the collection; an empty status or search text is the same as none. *)
Theorem list_orders_filters_compose :
  forall (db : list Store.order),
    (forall st q,
        Store.by_search q (Store.by_status st db)
        = Store.by_status st (Store.by_search q db))
    /\ (forall st q,
        Store.filtered_orders st q db `sublist_of` db
        /\ (length (Store.filtered_orders st q db) <= length db)%nat)
    /\ (forall s q,
        PyStr.lower s ∈ Store.known_statuses -> q <> "" ->
        Store.filtered_orders (Some s) (Some q) db
        = filter (fun o => Store.q_matches (PyStr.lower q) o = true
                           /\ PyStr.equal_ignoring_case (Store.status o) s) db)
    /\ (forall page page_size st q,
        Store.list_orders page page_size (Some "") q db
        = Store.list_orders page page_size None q db
        /\ Store.list_orders page page_size st (Some "") db
           = Store.list_orders page page_size st None db).
Proof.
  intros db. split; [|split; [|split]].
  - intros st q. unfold Store.by_search, Store.by_status.
    destruct st as [s|]; [|done]. destruct (Store.status_applies (Some s)); [|done].
    destruct q as [t|]; [|done]. destruct (PyStr.truthy (Some t)); [|done].
    rewrite !list_filter_filter. apply list_filter_iff. intros o. tauto.
  - intros st q.
    assert (Hsub : Store.filtered_orders st q db `sublist_of` db).
    { unfold Store.filtered_orders, Store.by_search, Store.by_status.
      destruct st as [s|]; [destruct (Store.status_applies (Some s))|];
        (destruct q as [t|]; [destruct (PyStr.truthy (Some t))|]);
        try done; repeat (etrans; [apply sublist_filter|]); done. }
    split; [done|]. by apply sublist_length.
  - intros s q Hk Hq. unfold Store.filtered_orders.
    rewrite by_status_known, by_search_nonempty by done.
    apply list_filter_filter.
  - intros page page_size st q. done.
Qed.

Lemma list_orders_filters_compose_witness :
  Store.id <$> Store.filtered_orders (Some "Approved") (Some "ITEM 2") Fixtures.seeded
  = [21; 24]
  /\ Store.filtered_orders (Some "Approved") (Some "ITEM 2") Fixtures.seeded
     = filter (fun o => Store.q_matches (PyStr.lower "ITEM 2") o = true
                        /\ PyStr.equal_ignoring_case (Store.status o) "Approved")
         Fixtures.seeded.
Proof.
  split; [reflexivity|].
  apply (proj1 (proj2 (proj2 (list_orders_filters_compose Fixtures.seeded)))).
  - apply (bool_decide_unpack _). vm_compute. reflexivity.
  - discriminate.
Defined.

(** X13. No read shows a stored price: two collections that differ only in
    the prices their records carry (or lack) give the same listing for
    every page, page size, status and search text, and the same answer to
    every read by id. *)
Theorem reads_ignore_stored_price :
  forall (db1 db2 : list Store.order),
    Routes.clear_price <$> db1 = Routes.clear_price <$> db2 ->
    (forall page page_size st q,
        Store.list_orders page page_size st q db1
        = Store.list_orders page page_size st q db2)
    /\ (forall order_id admin,
        Store.get_order order_id admin db1 = Store.get_order order_id admin db2).
Proof.
  intros db1 db2 Heq. split.
  - intros page page_size st q.
    rewrite <- (list_orders_clear_price _ _ _ _ db1).
    rewrite <- (list_orders_clear_price _ _ _ _ db2). by rewrite Heq.
  - intros order_id admin.
    rewrite <- (get_order_clear_price _ _ db1).
    rewrite <- (get_order_clear_price _ _ db2). by rewrite Heq.
Qed.

Lemma reads_ignore_stored_price_witness :
  Store.get_order 3 "admin" (<[2%nat := Store.with_price (Store.seed_order
      Fixtures.clock0 Fixtures.uuid0 3)]> Fixtures.seeded)
  = Store.get_order 3 "admin" Fixtures.seeded.
Proof.
  apply (reads_ignore_stored_price
           (<[2%nat := Store.with_price (Store.seed_order
               Fixtures.clock0 Fixtures.uuid0 3)]> Fixtures.seeded)
           Fixtures.seeded).
  reflexivity.
Defined.

Lemma list_orders_unchecked_pages_witness :
  Store.id <$> Store.items (Store.list_orders 1 (-22) None None Fixtures.seeded)
  = [1; 2; 3]
  /\ Store.items (Store.list_orders 0 10 None None Fixtures.seeded) = [].
Proof.
  destruct (list_orders_unchecked_pages Fixtures.seeded None None)
    as (_ & _ & Hzero & Hneg).
  split.
  - pose proof (Hneg 22 ltac:(lia)) as H.
    change (Z.opp 22) with (-22) in H. rewrite H. vm_compute. reflexivity.
  - apply Hzero. lia.
Defined.

(** ** Numbers in names *)

Section FormatFacts.
Import PyStr Price.

Lemma string_of_uint_digits (d : Decimal.uint) :
  Forall (fun c => is_digit c = true)
    (list_ascii_of_string (NilEmpty.string_of_uint d)).
Proof. induction d; simpl; constructor; done. Qed.

Lemma nilzero_string_of_uint_digits (d : Decimal.uint) :
  all_digits (NilZero.string_of_uint d) /\ NilZero.string_of_uint d <> "".
Proof.
  unfold all_digits.
  destruct d; simpl; (split; [|done]);
    try (constructor; [done | apply string_of_uint_digits]).
  by repeat constructor.
Qed.

(** [str(n)] of a number that is not negative is a run of digits. *)
Lemma str_of_int_nonneg (n : Z) :
  0 <= n -> all_digits (str_of_int n) /\ str_of_int n <> "".
Proof.
  intros Hn. unfold str_of_int. destruct n as [|p|p]; [| |lia];
    apply nilzero_string_of_uint_digits.
Qed.

(** [str(n)] is made of digits and the sign. *)
Lemma str_of_int_chars (n : Z) :
  Forall (fun c => is_digit c = true \/ c = "-"%char)
    (list_ascii_of_string (str_of_int n)).
Proof.
  assert (Hu : forall d, Forall (fun c => is_digit c = true \/ c = "-"%char)
                 (list_ascii_of_string (NilZero.string_of_uint d))).
  { intros d. destruct (nilzero_string_of_uint_digits d) as [Hd _].
    unfold all_digits in Hd. eapply Forall_impl; [exact Hd|]. by left. }
  unfold str_of_int. destruct (Z.to_int n) as [d|d]; simpl.
  - apply Hu.
  - constructor; [by right | apply Hu].
Qed.

Lemma to_int_not_nil (n : Z) :
  Z.to_int n <> Decimal.Pos Decimal.Nil /\ Z.to_int n <> Decimal.Neg Decimal.Nil.
Proof.
  split; intros H;
    (assert (n = 0) as -> by (rewrite <- (DecimalZ.of_to n), H; reflexivity));
    vm_compute in H; discriminate H.
Qed.

(** [int(str(n)) = n]: the text of a number determines the number. *)
Lemma str_of_int_inj (a b : Z) : str_of_int a = str_of_int b -> a = b.
Proof.
  unfold str_of_int. intros H. apply DecimalZ.to_int_inj.
  destruct (to_int_not_nil a) as [Ha1 Ha2], (to_int_not_nil b) as [Hb1 Hb2].
  pose proof (NilZero.isi _ Ha1 Ha2) as Ia.
  pose proof (NilZero.isi _ Hb1 Hb2) as Ib.
  rewrite H in Ia. congruence.
Qed.

Lemma list_ascii_append (a b : string) :
  list_ascii_of_string (a +:+ b)
  = list_ascii_of_string a ++ list_ascii_of_string b.
Proof. induction a as [|c a IH]; simpl; [done | by rewrite IH]. Qed.

(** A cut of [pre +:+ rest] inside [pre] is a cut of [pre]. *)
Lemma append_cut_inside (pre rest x y : string) :
  pre +:+ rest = x +:+ y -> (String.length x < String.length pre)%nat ->
  exists t, pre = x +:+ t /\ y = t +:+ rest /\ t <> "".
Proof.
  revert pre. induction x as [|c x IH]; intros pre H Hlen.
  - destruct pre as [|d pre]; [simpl in Hlen; lia|]. by exists (String d pre).
  - destruct pre as [|d pre]; simpl in Hlen; [lia|]. simpl in H.
    injection H as -> H. destruct (IH pre H) as (t & -> & -> & Ht); [lia|].
    by exists t.
Qed.

Lemma no_dollar_before (pre rest : string) (j : nat) :
  contains "$" pre = false -> (j < String.length pre)%nat ->
  ~ dollar_digit_at (pre +:+ rest) j.
Proof.
  intros Hno Hj (x & c & post & H & Hlen & _). subst j.
  destruct (append_cut_inside _ _ _ _ H Hj) as (t & -> & Ht & Hne).
  destruct t as [|d t]; [done|]. simpl in Ht. injection Ht as <- _.
  assert (contains "$" (x +:+ String "$" t) = true); [|congruence].
  apply contains_spec. by exists x, t.
Qed.

End FormatFacts.

(** X14. A price written the way the seeding writes it is read back: for
    a text without ['$'] in front, a number [n >= 0] and a rest that does
    not start with a digit, the price of [text $n rest] is [str(n)].  The
    text of a number determines the number, so the price read back names
    [n] itself. *)
Theorem extract_price_reads_formatted_number :
  (forall (pre post : string) (n : Z),
      PyStr.contains "$" pre = false -> 0 <= n -> PyStr.no_digit_ahead post ->
      Price.extract_price_from_name
        (pre +:+ "$" +:+ PyStr.str_of_int n +:+ post)
      = PyStr.str_of_int n)
  /\ (forall a b : Z, PyStr.str_of_int a = PyStr.str_of_int b -> a = b).
Proof.
  split; [|apply str_of_int_inj].
  intros pre post n Hpre Hn Hpost.
  destruct (str_of_int_nonneg n Hn) as [Hd Hne].
  unfold Price.extract_price_from_name.
  change ("$" +:+ PyStr.str_of_int n +:+ post)
    with (String "$" (PyStr.str_of_int n +:+ post)).
  rewrite re_search_first; try done.
  intros j Hj. by apply no_dollar_before.
Qed.

Lemma extract_price_reads_formatted_number_witness :
  Price.extract_price_from_name ("Dummy Item 7 " +:+ "$" +:+ PyStr.str_of_int 107 +:+ "")
  = PyStr.str_of_int 107.
Proof.
  apply (proj1 extract_price_reads_formatted_number "Dummy Item 7 " "" 107);
    [reflexivity | lia | exact I].
Defined.

(** ** The seeded collection *)

(** X15. Startup appends 25 orders, numbered 1 to 25, to what is there.
    Every one has a known status: approved when its number is a multiple
    of 3, rejected when it is a multiple of 5 but not of 3, pending
    otherwise; it has a download link exactly when it is approved, carries
    no price, and the price read from its name is its number plus 100.
    Whatever the clock and the uuids, a listing of the freshly seeded
    collection counts 8 approved, 4 rejected and 13 pending orders. *)
Theorem startup_event_seeds :
  forall (clock : Z -> Q) (uuid : Z -> string),
    (forall db0,
        length (Store.startup_event clock uuid db0) = (length db0 + 25)%nat
        /\ take (length db0) (Store.startup_event clock uuid db0) = db0
        /\ Store.id <$> drop (length db0) (Store.startup_event clock uuid db0)
           = seqZ 1 25)
    /\ (forall o, o ∈ Store.startup_event clock uuid [] ->
        1 <= Store.id o <= 25
        /\ Store.status o ∈ Store.known_statuses
        /\ (Store.status o = "approved" <-> Store.id o mod 3 = 0)
        /\ (Store.status o = "rejected"
            <-> Store.id o mod 3 <> 0 /\ Store.id o mod 5 = 0)
        /\ (is_Some (Store.download_link o) <-> Store.status o = "approved")
        /\ Store.price o = None
        /\ Price.extract_price_from_name (Store.name o)
           = PyStr.str_of_int (100 + Store.id o))
    /\ (forall page page_size,
        Store.total (Store.list_orders page page_size (Some "approved") None
                       (Store.startup_event clock uuid [])) = 8
        /\ Store.total (Store.list_orders page page_size (Some "rejected") None
                          (Store.startup_event clock uuid [])) = 4
        /\ Store.total (Store.list_orders page page_size (Some "pending") None
                          (Store.startup_event clock uuid [])) = 13).
Proof.
  intros clock uuid. split; [|split].
  - intros db0. split; [apply length_startup_event|].
    unfold Store.startup_event. split.
    + by rewrite take_app_length.
    + by rewrite drop_app_length.
  - intros o. unfold Store.startup_event. rewrite app_nil_l.
    intros (i & -> & Hi)%list_elem_of_fmap.
    vm_compute in Hi.
    repeat (apply elem_of_cons in Hi as [->|Hi]);
      [ (split; [cbn; lia|]);
        (split; [apply (bool_decide_unpack _); vm_compute; reflexivity|]);
        (split; [split; intros H; (reflexivity || discriminate H)|]);
        (split; [split; [intros H; (discriminate H || (split; [|reflexivity];
                                     intros H'; discriminate H'))
                       | intros [H1 H2];
                         first [reflexivity | discriminate H2
                               | exfalso; by apply H1]]|]);
        (split; [split; [intros [? H]; (reflexivity || discriminate H)
                       | intros H; (discriminate H || by eexists)]|]);
        (split; reflexivity) .. | by apply elem_of_nil in Hi ].
  - intros page page_size. rewrite !total_filtered. by repeat split.
Qed.

Lemma startup_event_seeds_witness :
  Store.id (Store.seed_order Fixtures.clock0 Fixtures.uuid0 15) mod 3 = 0.
Proof.
  destruct (proj1 (proj2 (startup_event_seeds Fixtures.clock0 Fixtures.uuid0))
              (Store.seed_order Fixtures.clock0 Fixtures.uuid0 15))
    as (_ & _ & Happ & _).
  - apply list_elem_of_lookup. exists 14%nat. reflexivity.
  - apply Happ. reflexivity.
Defined.

(** ** The config store *)

Section ConfigFacts.
Import Config.

Lemma admin_token_accepted :
  Auth.get_current_user Auth.ADMIN_TOKEN = Ok Auth.ADMIN_USERNAME.
Proof. reflexivity. Qed.

Lemma esign_key_in_range (index : Z) :
  1 <= index <= 5 -> esign_key index ∈ config_keys.
Proof.
  intros H.
  assert (index = 1 \/ index = 2 \/ index = 3 \/ index = 4 \/ index = 5)
    as [->|[->|[->|[->| ->]]]] by lia;
    apply (bool_decide_unpack _); vm_compute; reflexivity.
Qed.

Lemma esign_key_inj (i j : Z) : esign_key i = esign_key j -> i = j.
Proof.
  unfold esign_key. intros H. apply str_of_int_inj.
  by apply (inj (String.append "esign_image_")) in H.
Qed.

Lemma esign_key_not_public (index : Z) : esign_key index <> "public_image_url".
Proof. unfold esign_key. simpl. discriminate. Qed.

Lemma update_esign_state (index : Z) (update : ConfigUpdate) (admin : string)
    (cfg : gmap string string) :
  (update_esign_image_url index update admin cfg).2
  = match url update with
    | Some u => if decide (1 <= index <= 5) then <[esign_key index := u]> cfg else cfg
    | None => cfg
    end.
Proof.
  unfold update_esign_image_url.
  destruct (Z.leb_spec 1 index), (Z.leb_spec index 5); try lia;
    cbn [andb negb]; destruct (url update); cbn [snd];
    try (rewrite decide_True by lia); try (rewrite decide_False by lia); done.
Qed.

Lemma insert_keeps_dom (cfg : gmap string string) (k u : string) :
  k ∈ dom cfg -> dom (<[k := u]> cfg) = dom cfg.
Proof. intros H. apply dom_insert_lookup_L. by apply elem_of_dom. Qed.

Lemma handle_keeps_keys (cfg : gmap string string) (r : request) :
  dom cfg = config_keys -> dom (handle cfg r) = config_keys.
Proof.
  intros Hdom. destruct r as [token | token update | token index update];
    cbn [handle]; unfold as_admin;
    destruct (Auth.get_current_user token) as [admin|e]; cbn [snd]; try done.
  - unfold update_public_image_url.
    destruct (public_image_url update) as [u|]; cbn [snd]; [|done].
    rewrite insert_keeps_dom; [done|]. rewrite Hdom.
    apply (bool_decide_unpack _). vm_compute. reflexivity.
  - rewrite update_esign_state. destruct (url update) as [u|]; [|done].
    destruct (decide (1 <= index <= 5)) as [Hr|]; [|done].
    rewrite insert_keeps_dom; [done|]. rewrite Hdom.
    by apply esign_key_in_range.
Qed.

End ConfigFacts.

(** X16. Setting an esign image: an index outside 1..5 is refused with
    status 400 whatever else the request holds, a request in range without
    [url] is refused with status 400, and both leave the config as it is.
    Otherwise the slot of that index, one of the six keys, takes the url,
    the answer echoes it under the slot's key, and every other key keeps
    its value; a [public_image_url] in the request is ignored. *)
Theorem update_esign_image_url_outcomes :
  forall (index : Z) (update : Config.ConfigUpdate) (admin : string)
         (cfg : gmap string string),
    (index < 1 \/ 5 < index ->
     Config.update_esign_image_url index update admin cfg
     = (Config.Raise 400 "Esign index must be between 1 and 5", cfg))
    /\ (1 <= index <= 5 -> Config.url update = None ->
        Config.update_esign_image_url index update admin cfg
        = (Config.Raise 400 "Missing url field", cfg))
    /\ (forall u, 1 <= index <= 5 -> Config.url update = Some u ->
        exists answer cfg',
          Config.update_esign_image_url index update admin cfg
          = (Config.Return answer, cfg')
          /\ Config.esign_key index ∈ Config.config_keys
          /\ answer !! Config.esign_key index = Some u
          /\ cfg' !! Config.esign_key index = Some u
          /\ (forall k, k <> Config.esign_key index -> cfg' !! k = cfg !! k)
          /\ cfg' !! "public_image_url" = cfg !! "public_image_url").
Proof.
  intros index update admin cfg. unfold Config.update_esign_image_url.
  split; [|split].
  - intros Hout.
    destruct (Z.leb_spec 1 index), (Z.leb_spec index 5); cbn [andb negb];
      first [done | lia].
  - intros Hin Hu.
    destruct (Z.leb_spec 1 index), (Z.leb_spec index 5); cbn [andb negb];
      try lia. by rewrite Hu.
  - intros u Hin Hu.
    destruct (Z.leb_spec 1 index), (Z.leb_spec index 5); cbn [andb negb];
      try lia. rewrite Hu. eexists _, _. split; [reflexivity|].
    split; [by apply esign_key_in_range|].
    split; [apply lookup_insert_eq|]. split; [apply lookup_insert_eq|].
    split.
    + intros k Hk. by apply lookup_insert_ne.
    + apply lookup_insert_ne, esign_key_not_public.
Qed.

Lemma update_esign_image_url_outcomes_witness :
  Config.update_esign_image_url 6 {| Config.public_image_url := None;
                                     Config.url := Some "http://x/6" |}
    "admin" Config.config_db
  = (Config.Raise 400 "Esign index must be between 1 and 5", Config.config_db).
Proof.
  apply (proj1 (update_esign_image_url_outcomes 6 _ "admin" Config.config_db)).
  lia.
Defined.

(** X17. The config holds the same six keys at all times: no sequence of
    config requests adds or removes a key.  A request with another token
    than the static one changes nothing, nor does reading the config or a
    public-image request without [public_image_url]. *)
Theorem config_keys_never_change :
  (forall rs : list Config.request,
      dom (Config.serve Config.config_db rs) = Config.config_keys)
  /\ (forall (cfg : gmap string string) (token : string) (index : Z)
             (update : Config.ConfigUpdate),
      token <> Auth.ADMIN_TOKEN ->
      Config.handle cfg (Config.PutPublic token update) = cfg
      /\ Config.handle cfg (Config.PutEsign token index update) = cfg
      /\ (Config.as_admin token cfg
            (fun admin => Config.update_public_image_url update admin cfg)).1
         = Config.Raise 401 "Invalid authentication credentials")
  /\ (forall (cfg : gmap string string) (token : string) (u : option string),
      Config.handle cfg (Config.GetConfig token) = cfg
      /\ Config.handle cfg
           (Config.PutPublic token {| Config.public_image_url := None;
                                      Config.url := u |}) = cfg)
  /\ (forall (A : Type) (cfg : gmap string string) (token : string)
             (handler : string -> Config.reply A * gmap string string),
      token <> Auth.ADMIN_TOKEN ->
      Config.as_admin token cfg handler
      = (Config.Raise 401 "Invalid authentication credentials", cfg)).
Proof.
  split; [|split; [|split]]; [| | |
    intros A cfg token handler Hne; unfold Config.as_admin;
    by rewrite (authorize_err token Hne)].
  - intros rs.
    assert (H : forall cfg, dom cfg = Config.config_keys ->
                dom (Config.serve cfg rs) = Config.config_keys).
    { induction rs as [|r rs IH]; intros cfg Hdom; [done|].
      cbn [Config.serve foldl]. apply IH. by apply handle_keeps_keys. }
    apply H. reflexivity.
  - intros cfg token index update Hne. cbn [Config.handle].
    unfold Config.as_admin. by rewrite (authorize_err token Hne).
  - intros cfg token u. cbn [Config.handle]. unfold Config.as_admin.
    by destruct (Auth.get_current_user token).
Qed.

Lemma config_keys_never_change_witness :
  Config.handle Config.config_db
    (Config.PutEsign "guess" 1 {| Config.public_image_url := None;
                                  Config.url := Some "http://x/1" |})
  = Config.config_db.
Proof.
  apply (proj1 (proj2 config_keys_never_change) Config.config_db "guess" 1).
  discriminate.
Defined.

(** X18. What the admin writes is what the config reads back: after a
    public-image request with a url, served for the admin, the config maps
    [public_image_url] to it, and the same holds for an esign slot in
    range.  The last write to a key wins, writes to two different esign
    slots can be served in either order, and an esign request never changes
    [public_image_url]. *)
Theorem config_write_then_read :
  forall (cfg : gmap string string),
    (forall u other,
        Config.get_config Auth.ADMIN_USERNAME
          (Config.handle cfg
             (Config.PutPublic Auth.ADMIN_TOKEN
                {| Config.public_image_url := Some u; Config.url := other |}))
        !! "public_image_url" = Some u)
    /\ (forall index u other, 1 <= index <= 5 ->
        Config.get_config Auth.ADMIN_USERNAME
          (Config.handle cfg
             (Config.PutEsign Auth.ADMIN_TOKEN index
                {| Config.public_image_url := other; Config.url := Some u |}))
        !! Config.esign_key index = Some u)
    /\ (forall index u1 u2 o1 o2,
        Config.serve cfg
          [Config.PutEsign Auth.ADMIN_TOKEN index
             {| Config.public_image_url := o1; Config.url := Some u1 |};
           Config.PutEsign Auth.ADMIN_TOKEN index
             {| Config.public_image_url := o2; Config.url := Some u2 |}]
        = Config.serve cfg
            [Config.PutEsign Auth.ADMIN_TOKEN index
               {| Config.public_image_url := o2; Config.url := Some u2 |}])
    /\ (forall i j upd1 upd2, i <> j ->
        Config.serve cfg [Config.PutEsign Auth.ADMIN_TOKEN i upd1;
                          Config.PutEsign Auth.ADMIN_TOKEN j upd2]
        = Config.serve cfg [Config.PutEsign Auth.ADMIN_TOKEN j upd2;
                            Config.PutEsign Auth.ADMIN_TOKEN i upd1])
    /\ (forall token index update,
        Config.handle cfg (Config.PutEsign token index update)
        !! "public_image_url" = cfg !! "public_image_url").
Proof.
  intros cfg.
  assert (Hh : forall c index update,
    Config.handle c (Config.PutEsign Auth.ADMIN_TOKEN index update)
    = match Config.url update with
      | Some u => if decide (1 <= index <= 5)
                  then <[Config.esign_key index := u]> c else c
      | None => c
      end).
  { intros c index update. cbn [Config.handle]. unfold Config.as_admin.
    rewrite admin_token_accepted. apply update_esign_state. }
  split; [|split; [|split; [|split]]].
  - intros u other. cbn [Config.handle]. unfold Config.as_admin, Config.get_config.
    rewrite admin_token_accepted. cbn. apply lookup_insert_eq.
  - intros index u other Hin. unfold Config.get_config. rewrite Hh.
    cbn [Config.url]. rewrite decide_True by done. apply lookup_insert_eq.
  - intros index u1 u2 o1 o2. cbn [Config.serve foldl]. rewrite !Hh.
    cbn [Config.url]. destruct (decide (1 <= index <= 5)); [|done].
    apply insert_insert_eq.
  - intros i j upd1 upd2 Hij. cbn [Config.serve foldl]. rewrite !Hh.
    destruct (Config.url upd1) as [u1|], (Config.url upd2) as [u2|]; try done.
    destruct (decide (1 <= i <= 5)), (decide (1 <= j <= 5)); try done.
    apply insert_insert_ne. intros Hk. by apply esign_key_inj in Hk.
  - intros token index update. cbn [Config.handle]. unfold Config.as_admin.
    destruct (Auth.get_current_user token) as [admin|e]; [|done].
    rewrite update_esign_state. destruct (Config.url update) as [u|]; [|done].
    destruct (decide (1 <= index <= 5)); [|done].
    apply lookup_insert_ne, esign_key_not_public.
Qed.

Lemma config_write_then_read_witness :
  Config.get_config "admin"
    (Config.handle Config.config_db
       (Config.PutEsign Auth.ADMIN_TOKEN 3
          {| Config.public_image_url := None; Config.url := Some "http://x/3" |}))
  !! "esign_image_3" = Some "http://x/3".
Proof.
  apply (proj1 (proj2 (config_write_then_read Config.config_db)) 3). lia.
Defined.

(** ** The image store *)

Section ImageFacts.
Import PyStr Store Images.

Lemma upload_path_eq (w : world) (f : UploadFile) (order_id : Z) :
  upload_path w f order_id = "images/" +:+ upload_name w f order_id.
Proof. reflexivity. Qed.

Lemma save_upload_file_url (w : world) (f : UploadFile) (order_id : Z) :
  save_upload_file w f order_id
  = if write_ok w then Ok ("/" +:+ upload_path w f order_id) else Err StorageError.
Proof. reflexivity. Qed.

(** The text in front of the first ['_'] is determined. *)
Lemma before_underscore (a a' x x' : string) :
  Forall (fun c => c <> "_"%char) (list_ascii_of_string a) ->
  Forall (fun c => c <> "_"%char) (list_ascii_of_string a') ->
  a +:+ String "_" x = a' +:+ String "_" x' -> a = a'.
Proof.
  revert a'. induction a as [|c a IH]; intros a' Ha Ha' H.
  - destruct a' as [|c' a']; [done|]. simpl in H. injection H as <- _.
    inversion Ha' as [|? ? Hc _]. done.
  - destruct a' as [|c' a']; simpl in H.
    + injection H as -> _. inversion Ha as [|? ? Hc _]. done.
    + injection H as -> H. f_equal.
      inversion Ha; inversion Ha'; subst. by apply IH.
Qed.

Lemma str_of_int_no_underscore (n : Z) :
  Forall (fun c => c <> "_"%char) (list_ascii_of_string (str_of_int n)).
Proof.
  eapply Forall_impl; [apply str_of_int_chars|].
  intros c [Hd| ->] Hc; [subst c|]; discriminate.
Qed.

Lemma upload_name_inj (w w' : world) (f f' : UploadFile) (i i' : Z) :
  upload_name w f i = upload_name w' f' i' -> i = i'.
Proof.
  unfold upload_name. intros H.
  apply (inj (String.append "order_")) in H.
  apply str_of_int_inj.
  eapply before_underscore; [apply str_of_int_no_underscore..|exact H].
Qed.

End ImageFacts.

(** X19. An image request is answered with a file that exists: the file
    of that name under the upload directory when it is there, else the
    placeholder when that is there; it fails, with NotFound, exactly when
    neither exists. *)
Theorem get_image_serves_existing_files :
  forall (on_disk : string -> bool) (filename : string),
    (forall p, Images.get_image on_disk filename = Ok p ->
       on_disk p = true
       /\ (p = Images.path_join Store.UPLOAD_DIR filename
           \/ (on_disk (Images.path_join Store.UPLOAD_DIR filename) = false
               /\ p = "images/default.jpg")))
    /\ (on_disk (Images.path_join Store.UPLOAD_DIR filename) = true ->
        Images.get_image on_disk filename
        = Ok (Images.path_join Store.UPLOAD_DIR filename))
    /\ (Images.get_image on_disk filename = Err NotFound
        <-> on_disk (Images.path_join Store.UPLOAD_DIR filename) = false
            /\ on_disk "images/default.jpg" = false)
    /\ (forall e, Images.get_image on_disk filename = Err e -> e = NotFound)
    /\ (Images.startswith_sep filename = false ->
        Images.path_join Store.UPLOAD_DIR filename = "images/" +:+ filename).
Proof.
  intros on_disk filename. unfold Images.get_image.
  change (Images.path_join Store.UPLOAD_DIR "default.jpg")
    with "images/default.jpg".
  assert (Hjoin : Images.startswith_sep filename = false ->
            Images.path_join Store.UPLOAD_DIR filename = "images/" +:+ filename).
  { intros Hs. unfold Images.path_join. by rewrite Hs. }
  destruct (on_disk (Images.path_join Store.UPLOAD_DIR filename)) eqn:E1;
    cbn [negb]; [|destruct (on_disk "images/default.jpg") eqn:E2].
  - split; [|split; [|split; [|split]]]; try done.
    + intros p [= <-]. split; [done|]. by left.
    + split; [done|]. by intros [? _].
  - split; [|split; [|split; [|split]]]; try done.
    + intros p [= <-]. split; [done|]. by right.
    + split; [done|]. by intros [_ ?].
  - split; [|split; [|split; [|split]]]; try done.
    by intros e [= <-].
Qed.

Lemma get_image_serves_existing_files_witness :
  Images.get_image (fun p => String.eqb p "images/default.jpg") "gone.png"
  = Ok "images/default.jpg".
Proof.
  destruct (Images.get_image (fun p => String.eqb p "images/default.jpg")
              "gone.png") as [p|e] eqn:E.
  - destruct (proj1 (get_image_serves_existing_files _ _) p E)
      as (_ & [Hp|[_ Hp]]); [|by rewrite Hp].
    vm_compute in E. by injection E as <-.
  - vm_compute in E. discriminate E.
Defined.

(** X20. Where an upload goes: [save_upload_file] succeeds exactly when
    the write does and then returns ["/"] followed by the path it wrote,
    which is under the upload directory and is the file an image request
    for the generated name is answered with.  The path names the order:
    uploads for two different order ids never share a path, whatever the
    random parts and the file names are. *)
Theorem uploads_keep_orders_apart :
  (forall (w : Store.world) (f : Store.UploadFile) (order_id : Z) (url : string),
      Store.save_upload_file w f order_id = Ok url
      <-> Store.write_ok w = true
          /\ url = "/" +:+ Images.upload_path w f order_id)
  /\ (forall (w : Store.world) (f : Store.UploadFile) (order_id : Z)
             (on_disk : string -> bool),
      on_disk (Images.upload_path w f order_id) = true ->
      Images.get_image on_disk (Images.upload_name w f order_id)
      = Ok (Images.upload_path w f order_id))
  /\ (forall (w w' : Store.world) (f f' : Store.UploadFile) (i i' : Z),
      Images.upload_path w f i = Images.upload_path w' f' i' -> i = i')
  /\ (forall (w w' : Store.world) (f f' : Store.UploadFile) (i i' : Z) (url : string),
      Store.save_upload_file w f i = Ok url ->
      Store.save_upload_file w' f' i' = Ok url -> i = i')
  /\ (forall (w : Store.world) (f : Store.UploadFile) (order_id : Z),
      Images.upload_path w f order_id
      = "images/" +:+ Images.upload_name w f order_id).
Proof.
  assert (Hinj : forall (w w' : Store.world) (f f' : Store.UploadFile) (i i' : Z),
    Images.upload_path w f i = Images.upload_path w' f' i' -> i = i').
  { intros w w' f f' i i'. rewrite !upload_path_eq. intros H.
    apply (inj (String.append "images/")) in H. by eapply upload_name_inj. }
  split; [|split; [|split; [|split; [|apply upload_path_eq]]]].
  - intros w f order_id url. rewrite save_upload_file_url.
    destruct (Store.write_ok w); split; try done.
    + by intros [= <-].
    + by intros [_ ->].
    + by intros [? _].
  - intros w f order_id on_disk H. unfold Images.get_image.
    change (Images.path_join Store.UPLOAD_DIR (Images.upload_name w f order_id))
      with (Images.upload_path w f order_id).
    by rewrite H.
  - exact Hinj.
  - intros w w' f f' i i' url. rewrite !save_upload_file_url.
    destruct (Store.write_ok w), (Store.write_ok w'); try done.
    intros [= <-] [= H]. apply str_of_int_inj.
    eapply before_underscore; [apply str_of_int_no_underscore..|].
    symmetry. exact H.
Qed.

Lemma uploads_keep_orders_apart_witness :
  Images.get_image
    (fun p => String.eqb p (Images.upload_path Fixtures.world0 Fixtures.upload0 26))
    (Images.upload_name Fixtures.world0 Fixtures.upload0 26)
  = Ok "images/order_26_deadbeef_case.png".
Proof.
  apply (proj1 (proj2 uploads_keep_orders_apart) Fixtures.world0 Fixtures.upload0 26).
  reflexivity.
Defined.

(** ** Login, then the admin routes *)

(** X21. The token a successful login returns is the one the admin routes
    accept: [authorize] on it gives the admin user, so a route called with
    it runs its handler; the token type is ["bearer"]. *)
Theorem login_token_opens_admin_routes :
  forall (u p : string) (tok : Auth.Token),
    Auth.login_for_access_token u p = Ok tok ->
    Auth.get_current_user (Auth.access_token tok) = Ok Auth.ADMIN_USERNAME
    /\ Auth.token_type tok = "bearer"
    /\ (forall order_id db,
          Routes.GET_order (Auth.access_token tok) order_id db
          = Store.get_order order_id Auth.ADMIN_USERNAME db
          /\ Routes.DELETE_order (Auth.access_token tok) order_id db
             = Store.delete_order order_id Auth.ADMIN_USERNAME db)
    /\ (forall cfg update,
          Config.handle cfg (Config.PutPublic (Auth.access_token tok) update)
          = (Config.update_public_image_url update Auth.ADMIN_USERNAME cfg).2).
Proof.
  intros u p tok H. apply login_ok_iff in H as (_ & _ & ->). by repeat split.
Qed.

Lemma login_token_opens_admin_routes_witness :
  Auth.get_current_user
    (Auth.access_token {| Auth.access_token := Auth.ADMIN_TOKEN;
                          Auth.token_type := "bearer" |})
  = Ok Auth.ADMIN_USERNAME.
Proof.
  apply (login_token_opens_admin_routes "admin" "password123"). reflexivity.
Defined.

(** ** Listing after a change *)

Section ListingAfter.
Import PyStr Price PyList Store.

Lemma descending_filter {A : Type} (key : A -> Q) (P : A -> Prop)
    `{!forall x, Decision (P x)} (l : list A) :
  descending key l -> descending key (filter P l).
Proof.
  unfold descending. induction 1 as [|x l Hl IH Hx]; [constructor|].
  destruct (decide (P x)).
  - rewrite filter_cons_True by done. constructor; [done|].
    rewrite Forall_forall in Hx |- *. intros y Hy. apply Hx.
    apply list_elem_of_filter in Hy. tauto.
  - by rewrite filter_cons_False.
Qed.

Lemma with_key_filter {A : Type} (key : A -> Q) (P : A -> Prop)
    `{!forall x, Decision (P x)} (k : Q) (l : list A) :
  with_key key k (filter P l) = filter P (with_key key k l).
Proof.
  induction l as [|x l IH]; [done|]. rewrite with_key_cons.
  destruct (decide (P x)).
  - rewrite filter_cons_True by done. rewrite with_key_cons.
    destruct (Qeq_bool (key x) k); [|done].
    rewrite filter_cons_True by done. by rewrite IH.
  - rewrite filter_cons_False by done. rewrite IH.
    destruct (Qeq_bool (key x) k); [|done]. by rewrite filter_cons_False.
Qed.

(** Sorting what was filtered is filtering what was sorted. *)
Lemma sorted_reverse_filter {A : Type} (key : A -> Q) (P : A -> Prop)
    `{!forall x, Decision (P x)} (l : list A) :
  sorted_reverse key (filter P l) = filter P (sorted_reverse key l).
Proof.
  symmetry. apply sorted_reverse_unique.
  - apply descending_filter, sorted_reverse_descending.
  - intros k. by rewrite !with_key_filter, sorted_reverse_stable.
Qed.

Lemma sorted_reverse_by_status (st : option string) (l : list order) :
  sorted_reverse created_at (by_status st l)
  = by_status st (sorted_reverse created_at l).
Proof.
  unfold by_status. destruct st as [s|]; [|done].
  destruct (status_applies (Some s)); [|done]. apply sorted_reverse_filter.
Qed.

Lemma sorted_reverse_by_search (q : option string) (l : list order) :
  sorted_reverse created_at (by_search q l)
  = by_search q (sorted_reverse created_at l).
Proof.
  unfold by_search. destruct q as [s|]; [|done].
  destruct (truthy (Some s)); [|done]. apply sorted_reverse_filter.
Qed.

Lemma by_status_filter (st : option string) (P : order -> Prop)
    `{!forall x, Decision (P x)} (l : list order) :
  by_status st (filter P l) = filter P (by_status st l).
Proof.
  unfold by_status. destruct st as [s|]; [|done].
  destruct (status_applies (Some s)); [|done].
  rewrite !list_filter_filter. apply list_filter_iff. intros o. tauto.
Qed.

Lemma by_search_filter (q : option string) (P : order -> Prop)
    `{!forall x, Decision (P x)} (l : list order) :
  by_search q (filter P l) = filter P (by_search q l).
Proof.
  unfold by_search. destruct q as [s|]; [|done].
  destruct (truthy (Some s)); [|done].
  rewrite !list_filter_filter. apply list_filter_iff. intros o. tauto.
Qed.

Lemma with_key_app {A : Type} (key : A -> Q) (k : Q) (l1 l2 : list A) :
  with_key key k (l1 ++ l2) = with_key key k l1 ++ with_key key k l2.
Proof. unfold with_key. apply List.filter_app. Qed.

Lemma with_key_newer (k : Q) (db : list order) (o : order) :
  Forall (fun x => (created_at x < created_at o)%Q) db ->
  Qeq_bool (created_at o) k = true -> with_key created_at k db = [].
Proof.
  intros Hnew E. apply Qeq_bool_iff in E.
  induction db as [|x db IH]; [done|]. inversion Hnew as [|? ? Hx Hdb]; subst.
  rewrite with_key_cons. destruct (Qeq_bool (created_at x) k) eqn:Ex.
  - apply Qeq_bool_iff in Ex. rewrite Ex, <- E in Hx. by apply Qlt_irrefl in Hx.
  - by apply IH.
Qed.

Lemma filtered_orders_sublist (st q : option string) (l : list order) :
  filtered_orders st q l `sublist_of` l.
Proof.
  unfold filtered_orders, by_search, by_status.
  destruct st as [s|]; [destruct (status_applies (Some s))|];
    (destruct q as [t|]; [destruct (truthy (Some t))|]);
    try done; repeat (etrans; [apply sublist_filter|]); done.
Qed.

(** A record newer than all the others sorts in front of them. *)
Lemma sorted_reverse_newest_last (db : list order) (o : order) :
  Forall (fun x => (created_at x < created_at o)%Q) db ->
  sorted_reverse created_at (db ++ [o]) = o :: sorted_reverse created_at db.
Proof.
  intros Hnew. symmetry. apply sorted_reverse_unique.
  - constructor; [apply sorted_reverse_descending|].
    rewrite Forall_forall in Hnew |- *. intros x Hx.
    rewrite sorted_reverse_perm in Hx. by apply Qlt_le_weak, Hnew.
  - intros k. rewrite with_key_cons, sorted_reverse_stable, with_key_app.
    rewrite with_key_cons. destruct (Qeq_bool (created_at o) k) eqn:E.
    + by rewrite (with_key_newer k db o Hnew E).
    + by rewrite app_nil_r.
Qed.

End ListingAfter.

(** X22. Filtering and sorting can be done in either order: the listing
    is the whole collection sorted newest first, then filtered.  So a
    deletion takes the deleted id out of every listing and leaves the other
    items where they were: the listing of the collection after the deletion
    is the listing before it without the items of that id. *)
Theorem listing_after_delete :
  forall (db : list Store.order) (st q : option string),
    Store.sorted_orders st q db
    = Store.filtered_orders st q (PyList.sorted_reverse Store.created_at db)
    /\ (forall order_id admin,
        Store.sorted_orders st q (Store.delete_order order_id admin db).2
        = filter (fun o => Store.id o <> order_id) (Store.sorted_orders st q db))
    /\ (forall order_id admin page_size,
        Z.of_nat (length db) <= page_size ->
        Store.items
          (Store.list_orders 1 page_size st q (Store.delete_order order_id admin db).2)
        = filter (fun o => Store.id o <> order_id)
            (Store.items (Store.list_orders 1 page_size st q db))).
Proof.
  intros db st q.
  assert (Hdel : forall order_id admin,
    Store.sorted_orders st q (Store.delete_order order_id admin db).2
    = filter (fun o => Store.id o <> order_id) (Store.sorted_orders st q db)).
  { intros order_id admin. rewrite delete_order_state.
    unfold Store.sorted_orders, Store.filtered_orders.
    by rewrite by_status_filter, by_search_filter, sorted_reverse_filter. }
  split; [|split; [exact Hdel|]].
  - unfold Store.sorted_orders, Store.filtered_orders.
    by rewrite sorted_reverse_by_search, sorted_reverse_by_status.
  - intros order_id admin page_size Hsize.
    assert (Hlen : forall l : list Store.order,
      l `sublist_of` db ->
      Z.of_nat (length (Store.filtered_orders st q l)) <= page_size).
    { intros l Hl. apply sublist_length in Hl.
      pose proof (sublist_length _ _ (filtered_orders_sublist st q l)). lia. }
    rewrite !items_whole;
      [|apply Hlen; reflexivity
       |apply Hlen; rewrite delete_order_state; apply sublist_filter].
    rewrite Hdel. symmetry. by apply filter_fmap_same.
Qed.

Lemma listing_after_delete_witness :
  Store.id <$> Store.items
    (Store.list_orders 1 3 None None (Store.delete_order 2 "admin" Fixtures.trio).2)
  = [3; 1]
  /\ Store.items
       (Store.list_orders 1 3 None None (Store.delete_order 2 "admin" Fixtures.trio).2)
     = filter (fun o => Store.id o <> 2)
         (Store.items (Store.list_orders 1 3 None None Fixtures.trio)).
Proof.
  split; [reflexivity|].
  apply (proj2 (proj2 (listing_after_delete Fixtures.trio None None))).
  simpl. lia.
Defined.

(** X23. A creation adds one to the count of the unfiltered listing, and
    an order created later than every order of the collection is the first
    item of page 1: the sorted listing is the new order followed by the
    sorted listing of before. *)
Theorem new_order_tops_the_listing :
  forall (w : Store.world) (name udid : string) (image : Store.UploadFile)
         (db db' : list Store.order) (o : Store.order),
    Store.create_order w name udid image db = (Ok o, db') ->
    (forall page page_size,
        Store.total (Store.list_orders page page_size None None db')
        = Store.total (Store.list_orders page page_size None None db) + 1)
    /\ ((forall x, x ∈ db -> (Store.created_at x < Store.now w)%Q) ->
        Store.sorted_orders None None db' = o :: Store.sorted_orders None None db
        /\ forall page_size, 1 <= page_size ->
             head (Store.items (Store.list_orders 1 page_size None None db'))
             = Some o).
Proof.
  intros w name udid image db db' o H.
  apply create_order_ok in H as (_ & -> & _ & _ & _ & _ & _ & Hc & _ & Hwp).
  split.
  - intros page page_size. rewrite !total_filtered.
    change (Store.filtered_orders None None ?l) with l.
    rewrite length_app. simpl. lia.
  - intros Hnew.
    assert (Hs : Store.sorted_orders None None (db ++ [o])
                 = o :: Store.sorted_orders None None db).
    { unfold Store.sorted_orders.
      change (Store.filtered_orders None None ?l) with l.
      apply sorted_reverse_newest_last. apply Forall_forall.
      intros x Hx. rewrite Hc. by apply Hnew. }
    split; [exact Hs|]. intros page_size Hp.
    rewrite items_take_drop by lia.
    change (Z.to_nat (1 - 1)) with 0%nat. rewrite Nat.mul_0_l, drop_0, Hs.
    destruct (Z.to_nat page_size) as [|n] eqn:En; [lia|].
    cbn [take fmap list_fmap head]. by rewrite Hwp.
Qed.

Lemma new_order_tops_the_listing_witness :
  head (Store.items (Store.list_orders 1 12 None None
          (Store.create_order Fixtures.world0 "Case $999" "u1" Fixtures.upload0
             Fixtures.seeded).2))
  = match (Store.create_order Fixtures.world0 "Case $999" "u1" Fixtures.upload0
             Fixtures.seeded).1 with
    | Ok o => Some o
    | Err _ => None
    end.
Proof.
  refine (proj2 (proj2 (new_order_tops_the_listing Fixtures.world0 "Case $999"
            "u1" Fixtures.upload0 Fixtures.seeded _ _ eq_refl) _) 12 _); [|lia].
  intros x Hx. apply list_elem_of_lookup in Hx as [i Hi].
  assert (i < 25)%nat as Hlt by (apply lookup_lt_Some in Hi; exact Hi).
  do 25 (destruct i as [|i]; [injection Hi as <-; reflexivity|]). lia.
Defined.
